(** * Kometa web UI: the overlay template processor

    A shallow embedding of [webui/backend/template_processor.py]
    (class [TemplateProcessor]) and the properties of its resolver,
    conditional evaluator, template processor, template loader and
    overlay file expander.

    Python values are a closed sum type; dictionaries are insertion-ordered
    association lists; exceptions and the unbounded [while True] loop of the
    resolver are explicit outcomes of a small result monad.

    What the model takes from outside the program:
    - a string is the sequence of the bytes of its UTF-8 encoding;
      searching, splitting and replacing ASCII text, and the regular
      expression of the placeholders, agree on it with Python's on code
      points; [strip] removes the white space of Unicode; [lower] converts
      the ASCII letters, which is what comparing the result with ["true"]
      needs;
    - numbers are integers; a mapping is keyed by hashable scalars;
    - [str] of a dictionary or of a list is a parameter;
    - the files and the YAML parser are a function from paths to what
      [path.exists()], [open] and [yaml.load] give, the exception of
      [path.exists()] included;
    - printing and logging are left out. *)

From Stdlib Require Import String Ascii ZArith Bool Lia DecimalString.
From stdpp Require Import base option list gmap strings.

Local Open Scope string_scope.
Local Open Scope Z_scope.
Local Open Scope nat_scope.

#[local] Arguments String.append !s1 s2 : simpl nomatch.

(** ** Strings *)

Module Str.

Definition is_angle (c : ascii) : bool :=
  (Ascii.eqb c "<" || Ascii.eqb c ">")%bool.

(** [sub in s] *)
Fixpoint contains (sub s : string) : bool :=
  (String.prefix sub s ||
   match s with
   | EmptyString => false
   | String _ s' => contains sub s'
   end)%bool.

(** [s.startswith(p)] *)
Definition startswith (p s : string) : bool := String.prefix p s.

(** [s.endswith(suffix)] *)
Fixpoint endswith (suffix s : string) : bool :=
  (String.eqb s suffix ||
   match s with
   | EmptyString => false
   | String _ s' => endswith suffix s'
   end)%bool.

Fixpoint drop (n : nat) (s : string) : string :=
  match n, s with
  | S k, String _ s' => drop k s'
  | _, _ => s
  end.

(** [s[:-n]] for a positive [n] *)
Definition drop_last (n : nat) (s : string) : string :=
  String.substring 0 (String.length s - n) s.

(** [s.replace(old, new)] for a non-empty [old]: the occurrences are
    replaced from left to right, without overlap.  [skip] counts the
    characters of an occurrence that are still to be passed over. *)
Fixpoint replace_from (old new : string) (skip : nat) (s : string) : string :=
  match s with
  | EmptyString => EmptyString
  | String c s' =>
      match skip with
      | S k => replace_from old new k s'
      | O =>
          if String.prefix old s
          then String.append new (replace_from old new (String.length old - 1) s')
          else String c (replace_from old new 0 s')
      end
  end.

Definition replace (old new s : string) : string := replace_from old new 0 s.

(** [s.split(sep, 1)] when [sep] occurs in [s] *)
Fixpoint split_once (sep s : string) : option (string * string) :=
  if String.prefix sep s then Some (EmptyString, drop (String.length sep) s)
  else match s with
       | EmptyString => None
       | String c s' =>
           match split_once sep s' with
           | Some (a, b) => Some (String c a, b)
           | None => None
           end
       end.

(** White space as [str.strip()] sees it, read on the UTF-8 encoding of
    the text.  One byte: the characters 9 to 13 and 28 to 32. *)
Definition is_space (c : ascii) : bool :=
  let n := nat_of_ascii c in
  ((9 <=? n) && (n <=? 13) || (28 <=? n) && (n <=? 32))%bool%nat.

(** Two bytes: U+0085 and U+00A0. *)
Definition is_space2 (a b : ascii) : bool :=
  let a := nat_of_ascii a in
  let b := nat_of_ascii b in
  ((a =? 194) && ((b =? 133) || (b =? 160)))%bool%nat.

(** Three bytes: U+1680, U+2000 to U+200A, U+2028, U+2029, U+202F, U+205F
    and U+3000. *)
Definition is_space3 (a b c : ascii) : bool :=
  let a := nat_of_ascii a in
  let b := nat_of_ascii b in
  let c := nat_of_ascii c in
  ((a =? 225) && (b =? 154) && (c =? 128)
   || (a =? 226) && (b =? 128)
      && ((128 <=? c) && (c <=? 138) || (c =? 168) || (c =? 169) || (c =? 175))
   || (a =? 226) && (b =? 129) && (c =? 159)
   || (a =? 227) && (b =? 128) && (c =? 128))%bool%nat.

(** [s.lstrip()] *)
Fixpoint lstrip (s : string) : string :=
  match s with
  | String a s1 =>
      if is_space a then lstrip s1
      else match s1 with
           | String b s2 =>
               if is_space2 a b then lstrip s2
               else match s2 with
                    | String c s3 => if is_space3 a b c then lstrip s3 else s
                    | EmptyString => s
                    end
           | EmptyString => s
           end
  | EmptyString => EmptyString
  end.

(** [s] is made of white space. *)
Fixpoint all_space (s : string) : bool :=
  match s with
  | String a s1 =>
      if is_space a then all_space s1
      else match s1 with
           | String b s2 =>
               if is_space2 a b then all_space s2
               else match s2 with
                    | String c s3 =>
                        if is_space3 a b c then all_space s3 else false
                    | EmptyString => false
                    end
           | EmptyString => false
           end
  | EmptyString => true
  end.

(** [s.rstrip()]: the text up to its white-space tail. *)
Fixpoint rstrip (s : string) : string :=
  match s with
  | String c s' => if all_space s then EmptyString else String c (rstrip s')
  | EmptyString => EmptyString
  end.

(** [s.strip()] *)
Definition strip (s : string) : string := rstrip (lstrip s).

(** [s.split("-")[-1]] *)
Fixpoint last_dash_segment (s : string) : string :=
  match s with
  | EmptyString => EmptyString
  | String c s' =>
      if contains "-" s' then last_dash_segment s'
      else if Ascii.eqb c "-" then s' else s
  end.

Definition lower_char (c : ascii) : ascii :=
  let n := nat_of_ascii c in
  if ((65 <=? n) && (n <=? 90))%bool%nat then ascii_of_nat (n + 32) else c.

(** [s.lower()] on ASCII letters *)
Fixpoint lower (s : string) : string :=
  match s with
  | EmptyString => EmptyString
  | String c s' => String (lower_char c) (lower s')
  end.

(** [sep.join(parts)] *)
Definition join (sep : string) (parts : list string) : string :=
  String.concat sep parts.

Fixpoint chars (s : string) : list string :=
  match s with
  | EmptyString => []
  | String c s' => String c EmptyString :: chars s'
  end.

(** *** The regular expression [<<([^<>]+)>>] *)

(** The longest prefix without angle brackets, and what follows it. *)
Fixpoint span_name (s : string) : string * string :=
  match s with
  | EmptyString => (EmptyString, EmptyString)
  | String c s' =>
      if is_angle c then (EmptyString, s)
      else let '(n, r) := span_name s' in (String c n, r)
  end.

(** A match that starts at the head of [s]: the captured group. *)
Definition match_here (s : string) : option string :=
  match s with
  | String "<" (String "<" t) =>
      match span_name t with
      | (String c n, String ">" (String ">" _)) => Some (String c n)
      | _ => None
      end
  | _ => None
  end.

(** [re.finditer]: the matches from left to right, without overlap; the
    scan resumes after the end of each match. *)
Fixpoint finditer_from (skip : nat) (s : string) : list string :=
  match s with
  | EmptyString => []
  | String _ s' =>
      match skip with
      | S k => finditer_from k s'
      | O =>
          match match_here s with
          | Some n => n :: finditer_from (String.length n + 3) s'
          | None => finditer_from 0 s'
          end
      end
  end.

Definition finditer (s : string) : list string := finditer_from 0 s.

(** *** Predicates on strings used in the statements *)

Fixpoint no_open (s : string) : bool :=
  match s with
  | EmptyString => true
  | String c s' => (negb (Ascii.eqb c "<") && no_open s')%bool
  end.

Fixpoint no_angle (s : string) : bool :=
  match s with
  | EmptyString => true
  | String c s' => (negb (is_angle c) && no_angle s')%bool
  end.

(** What the group [[^<>]+] accepts: the identifier of a placeholder. *)
Definition is_name (s : string) : bool :=
  (negb (String.eqb s EmptyString) && no_angle s)%bool.

End Str.

(** ** Values *)

(** Hashable scalars: what a dictionary can be keyed by. *)
Inductive Key : Type :=
| KNone
| KBool (b : bool)
| KInt (z : Z)
| KStr (s : string).

(** The values a YAML document holds (floating-point numbers apart). *)
#[local] Unset Elimination Schemes.
Inductive Value : Type :=
| VNone
| VBool (b : bool)
| VInt (z : Z)
| VStr (s : string)
| VDict (items : list (Key * Value))
| VList (elems : list Value).

#[local] Set Elimination Schemes.

(** A [dict]: its items in insertion order, one per key. *)
Definition dict : Type := list (Key * Value).

Definition key_value (k : Key) : Value :=
  match k with
  | KNone => VNone
  | KBool b => VBool b
  | KInt z => VInt z
  | KStr s => VStr s
  end.

(** [hash(v)]: containers are unhashable. *)
Definition value_key (v : Value) : option Key :=
  match v with
  | VNone => Some KNone
  | VBool b => Some (KBool b)
  | VInt z => Some (KInt z)
  | VStr s => Some (KStr s)
  | VDict _ | VList _ => None
  end.

Definition key_num (k : Key) : option Z :=
  match k with
  | KBool b => Some (Z.b2z b)
  | KInt z => Some z
  | _ => None
  end.

(** Equality of keys: [True == 1] and [False == 0], and they hash alike. *)
Definition key_eqb (a b : Key) : bool :=
  match a, b with
  | KNone, KNone => true
  | KStr s, KStr t => String.eqb s t
  | _, _ =>
      match key_num a, key_num b with
      | Some x, Some y => Z.eqb x y
      | _, _ => false
      end
  end.

Module Dict.

(** [d.get(k)] *)
Fixpoint get (k : Key) (d : dict) : option Value :=
  match d with
  | [] => None
  | (k', v) :: d' => if key_eqb k k' then Some v else get k d'
  end.

(** [k in d] *)
Definition mem (k : Key) (d : dict) : bool :=
  match get k d with Some _ => true | None => false end.

(** [d.get(k, default)] *)
Definition get_default (k : Key) (default : Value) (d : dict) : Value :=
  match get k d with Some v => v | None => default end.

(** [d[k] = v]: an existing key keeps its place (and its key object), a
    new one goes to the end. *)
Fixpoint set (k : Key) (v : Value) (d : dict) : dict :=
  match d with
  | [] => [(k, v)]
  | (k', v') :: d' =>
      if key_eqb k k' then (k', v) :: d' else (k', v') :: set k v d'
  end.

(** [d.update(other)], also [{**d, **other}] *)
Definition update (d other : dict) : dict :=
  fold_left (fun acc kv => set (fst kv) (snd kv) acc) other d.

End Dict.

(** [a == b] *)
Fixpoint py_eq (a b : Value) {struct a} : bool :=
  match a, b with
  | VNone, VNone => true
  | VBool x, VBool y => Bool.eqb x y
  | VBool x, VInt z => Z.eqb (Z.b2z x) z
  | VInt z, VBool x => Z.eqb z (Z.b2z x)
  | VInt x, VInt y => Z.eqb x y
  | VStr s, VStr t => String.eqb s t
  | VList xs, VList ys =>
      (fix all2 (xs : list Value) (ys : list Value) : bool :=
         match xs, ys with
         | [], [] => true
         | x :: xs', y :: ys' => (py_eq x y && all2 xs' ys')%bool
         | _, _ => false
         end) xs ys
  | VDict d1, VDict d2 =>
      (Nat.eqb (length d1) (length d2) &&
       (fix sub (d : list (Key * Value)) : bool :=
          match d with
          | [] => true
          | (k, v) :: d' =>
              (match Dict.get k d2 with
               | Some v2 => py_eq v v2
               | None => false
               end && sub d')%bool
          end) d1)%bool
  | _, _ => false
  end.

(** [x in xs] for a list [xs] *)
Definition py_in (x : Value) (xs : list Value) : bool :=
  existsb (fun y => py_eq y x) xs.

(** [bool(v)] *)
Definition truthy (v : Value) : bool :=
  match v with
  | VNone => false
  | VBool b => b
  | VInt z => negb (Z.eqb z 0)
  | VStr s => negb (String.eqb s EmptyString)
  | VDict d => match d with [] => false | _ => true end
  | VList l => match l with [] => false | _ => true end
  end.

Definition is_none (v : Value) : bool :=
  match v with VNone => true | _ => false end.

(** [isinstance(v, str) and "<<" in v] *)
Definition has_open (v : Value) : bool :=
  match v with
  | VStr s => Str.contains "<<" s
  | _ => false
  end.

(** ** Outcomes *)

(** The exceptions of the program; [LoadError] is whatever [open] or the
    YAML parser raises, [OSError] what [path.exists()] raises when the
    system call fails other than by telling that the file is not there. *)
Inductive exn : Type :=
| TypeError
| AttributeError
| ValueError
| LoadError
| OSError.

(** What running a piece of the program gives: a value, an exception that
    propagates, or no answer within the iterations allowed to the
    resolver's [while True] loop. *)
Inductive res (A : Type) : Type :=
| Ok (a : A)
| Raise (e : exn)
| NoFuel.

Arguments Ok {A} a.
Arguments Raise {A} e.
Arguments NoFuel {A}.

Definition bind {A B : Type} (m : res A) (k : A -> res B) : res B :=
  match m with
  | Ok a => k a
  | Raise e => Raise e
  | NoFuel => NoFuel
  end.

Notation "'let*' x ':=' m 'in' k" := (bind m (fun x => k))
  (at level 10, x pattern, m at level 100, k at level 200).

(** A loop over a list that threads an accumulator. *)
Fixpoint foldM {A B : Type} (f : B -> A -> res B) (l : list A) (acc : B) : res B :=
  match l with
  | [] => Ok acc
  | x :: l' => let* acc' := f acc x in foldM f l' acc'
  end.

Definition int_str (z : Z) : string := NilZero.string_of_int (Z.to_int z).


(** ** The processor *)

Section Processor.

(** [str(v)] of a dictionary or of a list: it depends on the container
    classes of the YAML library, and stays abstract. *)
Variable container_str : Value -> string.

(** The directory [kometa_root / "defaults" / "overlays"]. *)
Variable defaults_dir : string.

(** [str(v)] *)
Definition py_str (v : Value) : string :=
  match v with
  | VNone => "None"
  | VBool true => "True"
  | VBool false => "False"
  | VInt z => int_str z
  | VStr s => s
  | VDict _ | VList _ => container_str v
  end.

(** *** [resolve_variable] *)

(** [f"<<{var_name}>>"] *)
Definition placeholder (var_name : string) : string :=
  String.append "<<" (String.append var_name ">>").

(** How the loop over the matches ends: with a [return], or at the end of
    the list with the current string and the replacement flag. *)
Inductive flow : Type :=
| Return (v : Value)
| Next (result : string) (made_replacement : bool).

(** [for match in matches: ...] *)
Fixpoint for_matches (variables : dict) (matches : list string)
    (result : string) (made_replacement : bool) : flow :=
  match matches with
  | [] => Next result made_replacement
  | var_name :: rest =>
      match Dict.get (KStr var_name) variables with
      | Some var_value =>
          if is_none var_value then for_matches variables rest result made_replacement
          else if String.eqb result (placeholder var_name) then Return var_value
          else for_matches variables rest
                 (Str.replace (placeholder var_name) (py_str var_value) result) true
      | None => for_matches variables rest result made_replacement
      end
  end.

(** One turn of the [while True] loop: [None] stands for [break]. *)
Definition while_body (variables : dict) (result : string) : option flow :=
  match Str.finditer result with
  | [] => None
  | matches => Some (for_matches variables matches result false)
  end.

(** [while True: ...]; the loop has no bound of its own, [fuel] counts
    the turns it is given.  It ends with [return] (left) or with [break]
    (right). *)
Fixpoint while_true (fuel : nat) (variables : dict) (result : string)
    : res (Value + string) :=
  match fuel with
  | O => NoFuel
  | S fuel' =>
      match while_body variables result with
      | None => Ok (inr result)
      | Some (Return v) => Ok (inl v)
      | Some (Next result' true) => while_true fuel' variables result'
      | Some (Next result' false) => Ok (inr result')
      end
  end.

(** [for _ in range(max_depth): ...] and the final [return result] *)
Fixpoint for_depth (fuel : nat) (variables : dict) (n : nat) (result : string)
    : res Value :=
  match n with
  | O => Ok (VStr result)
  | S n' =>
      let prev_result := result in
      match while_true fuel variables result with
      | Ok (inl v) => Ok v
      | Ok (inr result) =>
          if String.eqb result prev_result then Ok (VStr result)
          else for_depth fuel variables n' result
      | Raise e => Raise e
      | NoFuel => NoFuel
      end
  end.

Fixpoint resolve_variable (fuel : nat) (value : Value) (variables : dict)
    (max_depth : nat) {struct value} : res Value :=
  match value with
  | VNone => Ok VNone
  | VStr s => for_depth fuel variables max_depth s
  | VDict items =>
      let* items' :=
        (fix each (l : list (Key * Value)) : res (list (Key * Value)) :=
           match l with
           | [] => Ok []
           | (k, v) :: l' =>
               let* v' := resolve_variable fuel v variables 10 in
               let* r := each l' in
               Ok ((k, v') :: r)
           end) items in
      Ok (VDict items')
  | VList elems =>
      let* elems' :=
        (fix each (l : list Value) : res (list Value) :=
           match l with
           | [] => Ok []
           | item :: l' =>
               let* item' := resolve_variable fuel item variables 10 in
               let* r := each l' in
               Ok (item' :: r)
           end) elems in
      Ok (VList elems')
  | _ => Ok value
  end.

(** A call that leaves [max_depth] at its default. *)
Definition resolve (fuel : nat) (value : Value) (variables : dict) : res Value :=
  resolve_variable fuel value variables 10.


(** *** [evaluate_conditionals] *)

(** A key ending in [.exists]: the variable is there, is not [None], and
    is not a string that still holds a placeholder. *)
Definition check_exists (fuel : nat) (variables : dict)
    (check_key : string) (check_value : Value) : res bool :=
  let var_name := Str.drop_last 7 check_key in
  let* resolved_var_name := resolve fuel (VStr var_name) variables in
  let var_name :=
    match resolved_var_name with VStr s => s | _ => var_name end in
  let var_exists :=
    match Dict.get (KStr var_name) variables with
    | Some var_value =>
        (negb (is_none var_value) &&
         negb match var_value with
              | VStr s => Str.contains "<<" s && Str.contains ">>" s
              | _ => false
              end)%bool
    | None => false
    end in
  let expected :=
    match check_value with
    | VBool b => b
    | _ => String.eqb (Str.lower (py_str check_value)) "true"
    end in
  Ok (Bool.eqb var_exists expected).

(** A key ending in [.not] *)
Definition check_not (variables : dict) (check_key : string)
    (check_value : Value) : bool :=
  let var_name := Str.drop_last 4 check_key in
  match Dict.get (KStr var_name) variables with
  | Some var_val =>
      match check_value with
      | VList l => negb (py_in var_val l)
      | _ => negb (String.eqb (py_str var_val) (py_str check_value))
      end
  | None => true
  end.

(** The plain equality check *)
Definition check_equal (variables : dict) (check_key : string)
    (check_value : Value) : bool :=
  match Dict.get (KStr check_key) variables with
  | Some var_val =>
      match check_value with
      | VList l => py_in var_val l
      | _ => String.eqb (py_str var_val) (py_str check_value)
      end
  | None => false
  end.

(** One check of a clause: [true] when it passes, [false] when it sets
    [condition_met = False]. *)
Definition check (fuel : nat) (variables : dict) (check_key : Key)
    (check_value : Value) : res bool :=
  let* resolved_check_key := resolve fuel (key_value check_key) variables in
  let check_key :=
    match resolved_check_key with
    | VStr s => KStr s
    | _ => check_key
    end in
  match check_key with
  | KStr ck =>
      if Str.endswith ".exists" ck then check_exists fuel variables ck check_value
      else if Str.endswith ".not" ck then Ok (check_not variables ck check_value)
      else Ok (check_equal variables ck check_value)
  | _ => Raise AttributeError
  end.

(** [for check_key, check_value in condition.items(): ...]: the value of
    [condition_met] after the loop. *)
Fixpoint condition_met (fuel : nat) (variables : dict) (condition : dict)
    : res bool :=
  match condition with
  | [] => Ok true
  | (check_key, check_value) :: rest =>
      if key_eqb check_key (KStr "value") then condition_met fuel variables rest
      else
        let* passed := check fuel variables check_key check_value in
        if passed then condition_met fuel variables rest else Ok false
  end.

(** All the checks of a clause pass (the [value] entry is not a check). *)
Definition checks_pass (fuel : nat) (variables : dict) (condition : dict) : Prop :=
  Forall (fun kv : Key * Value =>
            key_eqb (fst kv) (KStr "value") = false ->
            check fuel variables (fst kv) (snd kv) = Ok true)
         condition.

(** A clause that is passed over: it is not a mapping, or one of its checks
    fails after the checks before it have passed. *)
Definition clause_fails (fuel : nat) (variables : dict) (clause : Value) : Prop :=
  match clause with
  | VDict condition =>
      exists (before after : dict) (k : Key) (v : Value),
        condition = (before ++ (k, v) :: after)%list
        /\ checks_pass fuel variables before
        /\ key_eqb k (KStr "value") = false
        /\ check fuel variables k v = Ok false
  | _ => True
  end.

(** [for condition in conditions: ...], from [resolved_value]. *)
Fixpoint scan_conditions (fuel : nat) (variables : dict)
    (conditions : list Value) (resolved_value : Value) : res Value :=
  match conditions with
  | [] => Ok resolved_value
  | VDict condition :: rest =>
      let condition_value := Dict.get_default (KStr "value") VNone condition in
      let* met := condition_met fuel variables condition in
      if met then Ok condition_value
      else scan_conditions fuel variables rest resolved_value
  | _ :: rest => scan_conditions fuel variables rest resolved_value
  end.

(** What [for condition in conditions] iterates over; a lone clause is
    wrapped in a list first. *)
Definition iter_conditions (conditions : Value) : res (list Value) :=
  match conditions with
  | VDict _ => Ok [conditions]
  | VList l => Ok l
  | VStr s => Ok (map VStr (Str.chars s))
  | _ => Raise TypeError
  end.

(** The value of one conditional: the body of the outer loop from
    [default_value = cond_def.get("default")] to [final_value]. *)
Definition evaluate_conditional (fuel : nat) (cond_def : dict)
    (variables : dict) : res Value :=
  let default_value := Dict.get_default (KStr "default") VNone cond_def in
  let conditions := Dict.get_default (KStr "conditions") (VList []) cond_def in
  let* conditions := iter_conditions conditions in
  let* resolved_value := scan_conditions fuel variables conditions default_value in
  resolve fuel resolved_value variables.

Definition evaluate_conditionals (fuel : nat) (conditionals : dict)
    (variables : dict) : res dict :=
  foldM (fun results '(cond_name, cond_def) =>
           match cond_def with
           | VDict cond_def =>
               let* resolved_cond_name :=
                 resolve fuel (key_value cond_name) variables in
               let cond_name :=
                 match resolved_cond_name with
                 | VStr s => KStr s
                 | _ => cond_name
                 end in
               let* final_value := evaluate_conditional fuel cond_def variables in
               Ok (Dict.set cond_name final_value results)
           | _ => Ok results
           end)
        conditionals [].

(** *** [process_template] *)

(** [name in d and isinstance(d[name], dict)] *)
Definition dict_field (name : string) (d : dict) : option dict :=
  match Dict.get (KStr name) d with
  | Some (VDict x) => Some x
  | _ => None
  end.

(** Using a value as a key hashes it. *)
Definition hashed (v : Value) : res Key :=
  match value_key v with
  | Some k => Ok k
  | None => Raise TypeError
  end.

(** [variables = dict(user_variables); variables["key"] = key] *)
Definition seed_variables (user_variables : dict) (key : Value) : dict :=
  Dict.set (KStr "key") key user_variables.

(** The first loop over the template defaults. *)
Definition merge_defaults (fuel : nat) (defaults : dict) (variables : dict)
    : res dict :=
  foldM (fun variables '(dk, dv) =>
           let* resolved_key := resolve fuel (key_value dk) variables in
           let* rk := hashed resolved_key in
           if Dict.mem rk variables then Ok variables
           else Ok (Dict.set rk dv variables))
        defaults variables.

(** [for vk, vv in list(variables.items())]: the values that hold [<<]
    are resolved against the dictionary as it stands. *)
Definition resolve_values (fuel : nat) (variables : dict) : res dict :=
  foldM (fun variables '(vk, vv) =>
           if has_open vv then
             let* resolved := resolve fuel vv variables in
             Ok (Dict.set vk resolved variables)
           else Ok variables)
        variables variables.

(** The keys that hold [<<] are resolved and the dictionary is rebuilt. *)
Definition resolve_keys (fuel : nat) (variables : dict) : res dict :=
  foldM (fun resolved_vars '(vk, vv) =>
           if has_open (key_value vk) then
             let* resolved_key := resolve fuel (key_value vk) variables in
             if py_eq resolved_key (key_value vk) then Ok resolved_vars
             else
               let* rk := hashed resolved_key in
               Ok (Dict.set rk vv resolved_vars)
           else Ok (Dict.set vk vv resolved_vars))
        variables [].

(** The body of the first [for _ in range(5)] loop. *)
Definition pass_values_and_keys (fuel : nat) (variables : dict) : res dict :=
  let* variables := resolve_values fuel variables in
  resolve_keys fuel variables.

(** [for _ in range(n)] around a pass, left as soon as a pass changes
    nothing. *)
Fixpoint passes (n : nat) (pass : dict -> res dict) (variables : dict)
    : res dict :=
  match n with
  | O => Ok variables
  | S n' =>
      let prev_vars := variables in
      let* variables := pass variables in
      if py_eq (VDict variables) (VDict prev_vars) then Ok variables
      else passes n' pass variables
  end.

Definition first_passes (fuel : nat) (variables : dict) : res dict :=
  passes 5 (pass_values_and_keys fuel) variables.

(** The loop after the conditionals: values only. *)
Definition second_passes (fuel : nat) (variables : dict) : res dict :=
  passes 5 (resolve_values fuel) variables.

(** The second loop over the template defaults. *)
Definition remerge_defaults (fuel : nat) (defaults : dict) (variables : dict)
    : res dict :=
  foldM (fun variables '(dk, dv) =>
           let* resolved_key := resolve fuel (key_value dk) variables in
           if has_open dv then
             let* resolved_value := resolve fuel dv variables in
             if is_none resolved_value then Ok variables
             else
               let* rk := hashed resolved_key in
               if (negb (Dict.mem rk variables)
                   || is_none (Dict.get_default rk VNone variables)
                   || has_open (Dict.get_default rk VNone variables))%bool
               then Ok (Dict.set rk resolved_value variables)
               else Ok variables
           else Ok variables)
        defaults variables.

(** The loop over [overlay_def.items()]. *)
Definition resolve_overlay (fuel : nat) (overlay_def : dict) (variables : dict)
    : res dict :=
  foldM (fun resolved_overlay '(ok, ov) =>
           let* resolved_key := resolve fuel (key_value ok) variables in
           let* resolved_value := resolve fuel ov variables in
           if key_eqb ok (KStr "name") then
             if is_none resolved_value then Ok resolved_overlay
             else
               let* rk := hashed resolved_key in
               Ok (Dict.set rk resolved_value resolved_overlay)
           else if (negb (is_none resolved_value)
                    && negb (has_open resolved_value))%bool then
             let* rk := hashed resolved_key in
             Ok (Dict.set rk resolved_value resolved_overlay)
           else Ok resolved_overlay)
        overlay_def [].

(** The variables that the overlay is resolved against: everything of
    [process_template] before [overlay_def = ...]. *)
Definition final_variables (fuel : nat) (template_def : dict)
    (user_variables : dict) (key : Value) : res dict :=
  let variables := seed_variables user_variables key in
  let* variables :=
    match dict_field "default" template_def with
    | Some defaults => merge_defaults fuel defaults variables
    | None => Ok variables
    end in
  let* variables := first_passes fuel variables in
  let* variables :=
    match dict_field "conditionals" template_def with
    | Some conditionals =>
        let* conditional_results :=
          evaluate_conditionals fuel conditionals variables in
        Ok (Dict.update variables conditional_results)
    | None => Ok variables
    end in
  let* variables :=
    match dict_field "default" template_def with
    | Some defaults => remerge_defaults fuel defaults variables
    | None => Ok variables
    end in
  second_passes fuel variables.

Definition process_template (fuel : nat) (template_name : Value)
    (template_def : dict) (user_variables : dict) (key : Value) : res dict :=
  let* variables := final_variables fuel template_def user_variables key in
  let overlay_def := Dict.get_default (KStr "overlay") (VDict []) template_def in
  if negb (truthy overlay_def) then Ok []
  else match overlay_def with
       | VDict overlay_def => resolve_overlay fuel overlay_def variables
       | _ => Raise AttributeError
       end.

(** *** [load_templates] *)

(** What [open] and [yaml.load] give for a path that exists. *)
Inductive load_outcome : Type :=
| LoadFails
| Loaded (data : Value).

(** What [path.exists()] gives for a path: it raises [OSError] (a name
    that is too long, for one), or answers [False], or answers [True], and
    then [open] and [yaml.load] give their outcome. *)
Inductive path_outcome : Type :=
| ExistsRaises
| Missing
| Present (outcome : load_outcome).

(** The files and the parser. *)
Definition filesystem : Type := string -> path_outcome.

Definition path_join (dir name : string) : string :=
  String.append dir (String.append "/" name).

(** [template_path]; paths are plain strings, what [pathlib] does to them
    is part of the files. *)
Definition template_path (template_source : string) : string :=
  if String.eqb template_source "templates"
  then path_join defaults_dir "templates.yml"
  else if Str.startswith "/" template_source then template_source
       else path_join defaults_dir template_source.

(** The body of the [try] block up to [templates]. *)
Definition read_templates (outcome : load_outcome) : res Value :=
  match outcome with
  | LoadFails => Raise LoadError
  | Loaded data =>
      if truthy data then
        match data with
        | VDict d => Ok (Dict.get_default (KStr "templates") (VDict []) d)
        | _ => Raise AttributeError
        end
      else Ok (VDict [])
  end.

(** [load_templates] on the cache of the processor; the cache after the
    call comes with the result.  [except Exception] turns every exception
    of the [try] block into the empty mapping; [template_path.exists()]
    stands before the [try] block, and what it raises propagates. *)
Definition load_templates (fs : filesystem) (cache : gmap string Value)
    (template_source : string) : gmap string Value * res Value :=
  match cache !! template_source with
  | Some templates => (cache, Ok templates)
  | None =>
      match fs (template_path template_source) with
      | ExistsRaises => (cache, Raise OSError)
      | Missing => (cache, Ok (VDict []))
      | Present outcome =>
          match read_templates outcome with
          | Ok templates => (<[template_source := templates]> cache, Ok templates)
          | Raise _ => (cache, Ok (VDict []))
          | NoFuel => (cache, NoFuel)
          end
      end
  end.

(** The call [self.load_templates(template_source)] with whatever
    [ext_tmpl.get("default", "templates")] holds: only a string gets
    past the cache lookup and [Path]. *)
Definition load_templates_from (fs : filesystem) (cache : gmap string Value)
    (template_source : Value) : gmap string Value * res Value :=
  match template_source with
  | VStr s => load_templates fs cache s
  | _ => (cache, Raise TypeError)
  end.

(** *** The caller's dictionaries *)

(** Dictionary objects that the caller can see live in a store; a
    location is an index into it.  The program assigns to the items of
    dictionaries that it holds in a variable and to nothing inside their
    values, so the values are plain trees. *)
Definition deref (h : list dict) (l : nat) : dict := default [] (h !! l).

(** [dict(d)] or [{}]: a new object *)
Definition alloc (h : list dict) (d : dict) : list dict * nat :=
  ((h ++ [d])%list, length h).

(** [obj[k] = v] *)
Definition setitem (h : list dict) (l : nat) (k : Key) (v : Value) : list dict :=
  <[l := Dict.set k v (deref h l)]> h.

(** *** [preprocess_template_variables] *)

(** The body of [for i in range(1, 4)] *)
Definition expand_rating (result : nat) (h : list dict) (i : Z) : list dict :=
  let key := String.append "rating" (int_str i) in
  match Dict.get (KStr key) (deref h result) with
  | Some (VStr value) =>
      if Str.contains " / " value then
        match Str.split_once " / " value with
        | Some (rating_type, rating_image) =>
            let h := setitem h result (KStr key) (VStr (Str.strip rating_type)) in
            setitem h result (KStr (String.append key "_image"))
              (VStr (Str.strip rating_image))
        | None => h
        end
      else h
  | _ => h
  end.

Definition preprocess_template_variables (h : list dict) (variables : nat)
    : list dict * nat :=
  let '(h, result) := alloc h (deref h variables) in
  (fold_left (expand_rating result) [1; 2; 3]%Z h, result).

(** *** [_extract_external_template_vars] *)

Definition extract_external_template_vars (ext_tmpl : dict) : dict * dict :=
  match Dict.get (KStr "template_variables") ext_tmpl with
  | Some (VDict tmpl_vars) =>
      fold_left
        (fun '(variables, conditionals) '(tk, tv) =>
           match tv with
           | VDict d =>
               if key_eqb tk (KStr "default") then
                 (fold_left
                    (fun variables '(dk, dv) =>
                       if Dict.mem dk variables then variables
                       else Dict.set dk dv variables)
                    d variables,
                  conditionals)
               else if key_eqb tk (KStr "conditionals") then
                 (variables, Dict.update conditionals d)
               else (Dict.set tk tv variables, conditionals)
           | _ => (Dict.set tk tv variables, conditionals)
           end)
        tmpl_vars ([], [])
  | _ => ([], [])
  end.

(** *** [expand_overlay_file] *)

(** One element of the argument of [d.update(...)] when the argument is
    not a mapping: it has to be a sequence of two items. *)
Definition update_pair (d : dict) (elem : Value) : res dict :=
  match elem with
  | VList [k; v] => let* k := hashed k in Ok (Dict.set k v d)
  | VStr (String a (String b EmptyString)) =>
      Ok (Dict.set (KStr (String a EmptyString)) (VStr (String b EmptyString)) d)
  | VDict [(k1, _); (k2, _)] => Ok (Dict.set k1 (key_value k2) d)
  | VList _ | VStr _ | VDict _ => Raise ValueError
  | _ => Raise TypeError
  end.

(** [d.update(other)] for any [other] *)
Definition update_any (d : dict) (other : Value) : res dict :=
  match other with
  | VDict o => Ok (Dict.update d o)
  | VList l => foldM update_pair l d
  | VStr s => foldM update_pair (map VStr (Str.chars s)) d
  | _ => Raise TypeError
  end.

(** [tmpl_name] and [tmpl_vars] of a call; [None] for [continue]. *)
Definition call_parts (tmpl_call : Value) : option (Value * dict) :=
  match tmpl_call with
  | VDict c =>
      Some (Dict.get_default (KStr "name") (VStr "standard") c,
            List.filter (fun kv => negb (key_eqb (fst kv) (KStr "name"))) c)
  | VStr _ => Some (tmpl_call, [])
  | _ => None
  end.

(** [effective_template]: a copy of the template with the external
    conditionals beneath its own. *)
Definition effective_template (template_def : Value)
    (external_conditionals : dict) : res dict :=
  let template_def :=
    match template_def with
    | VList (first :: _) => first
    | _ => template_def
    end in
  let effective := match template_def with VDict d => d | _ => [] end in
  if truthy (VDict external_conditionals) then
    match Dict.get (KStr "conditionals") effective with
    | Some own =>
        let* merged_conds := update_any external_conditionals own in
        Ok (Dict.set (KStr "conditionals") (VDict merged_conds) effective)
    | None =>
        Ok (Dict.set (KStr "conditionals") (VDict external_conditionals) effective)
    end
  else Ok effective.

(** [for rk, rv in resolved.items(): ...] *)
Definition merge_resolved (resolved : dict) (merged_overlay : dict) : res dict :=
  foldM (fun merged_overlay '(rk, rv) =>
           match rk with
           | KStr name =>
               if (negb (Str.startswith "_" name) && negb (is_none rv))%bool
               then Ok (Dict.set rk rv merged_overlay)
               else Ok merged_overlay
           | _ => Raise AttributeError
           end)
        resolved merged_overlay.

(** The body of [for tmpl_call in template_calls] *)
Definition apply_call (fuel : nat) (all_templates : dict)
    (external_conditionals : dict) (overlay_vars : dict)
    (merged_overlay : dict) (tmpl_call : Value) : res dict :=
  match call_parts tmpl_call with
  | None => Ok merged_overlay
  | Some (tmpl_name, tmpl_vars) =>
      let* name_key := hashed tmpl_name in
      match Dict.get name_key all_templates with
      | None => Ok merged_overlay
      | Some template_def =>
          let* effective := effective_template template_def external_conditionals in
          let combined_vars := Dict.update overlay_vars tmpl_vars in
          let* resolved :=
            process_template fuel tmpl_name effective combined_vars
              (Dict.get_default (KStr "key") (VStr "") combined_vars) in
          merge_resolved resolved merged_overlay
      end
  end.

(** What a call contributes to [_template] *)
Definition call_label (tmpl_call : Value) : Value :=
  match tmpl_call with
  | VDict c => Dict.get_default (KStr "name") tmpl_call c
  | _ => VStr (py_str tmpl_call)
  end.

(** [", ".join(...)]: every item has to be a string. *)
Fixpoint join_labels (labels : list Value) : res (list string) :=
  match labels with
  | [] => Ok []
  | VStr s :: rest => let* r := join_labels rest in Ok (s :: r)
  | _ :: _ => Raise TypeError
  end.

(** [overlay_vars] before the [key] step: a copy of the caller's variables,
    updated with the [variables] and [template_variables] blocks of the
    entry. *)
Definition declared_variables (user_vars overlay_def : dict) : dict :=
  let overlay_vars := user_vars in
  let overlay_vars :=
    match dict_field "variables" overlay_def with
    | Some d => Dict.update overlay_vars d
    | None => overlay_vars
    end in
  match dict_field "template_variables" overlay_def with
  | Some d => Dict.update overlay_vars d
  | None => overlay_vars
  end.

(** [overlay_vars] of an entry *)
Definition entry_variables (user_vars : dict) (overlay_name : Key)
    (overlay_def : dict) : res dict :=
  let overlay_vars := declared_variables user_vars overlay_def in
  if Dict.mem (KStr "key") overlay_vars then Ok overlay_vars
  else match overlay_name with
       | KStr name =>
           Ok (Dict.set (KStr "key")
                 (VStr (if Str.contains "-" name then Str.last_dash_segment name
                        else name))
                 overlay_vars)
       | _ => Raise TypeError
       end.

(** [template_call if isinstance(template_call, list) else [template_call]] *)
Definition template_calls_of (template_call : Value) : list Value :=
  match template_call with
  | VList l => l
  | _ => [template_call]
  end.

(** An entry with a [template] field: what is appended, if anything. *)
Definition expand_template_entry (fuel : nat) (all_templates : dict)
    (external_conditionals : dict) (user_vars : dict) (overlay_name : Key)
    (overlay_def : dict) (template_call : Value) : res (option dict) :=
  let template_calls := template_calls_of template_call in
  let* overlay_vars := entry_variables user_vars overlay_name overlay_def in
  let* merged_overlay :=
    foldM (apply_call fuel all_templates external_conditionals overlay_vars)
      template_calls [] in
  if truthy (VDict merged_overlay) then
    let merged_overlay :=
      Dict.set (KStr "_original_name") (key_value overlay_name) merged_overlay in
    let* names := join_labels (map call_label template_calls) in
    Ok (Some (Dict.set (KStr "_template") (VStr (Str.join ", " names))
                merged_overlay))
  else Ok None.

(** An entry with an [overlay] field that is a dictionary, and no
    [template] field. *)
Definition expand_direct_entry (fuel : nat) (user_vars : dict)
    (overlay_name : Key) (overlay_config : dict) : res dict :=
  let* resolved :=
    foldM (fun resolved '(ok, ov) =>
             let* resolved_value := resolve fuel ov user_vars in
             if is_none resolved_value then Ok resolved
             else Ok (Dict.set ok resolved_value resolved))
          overlay_config [] in
  let resolved := Dict.set (KStr "_original_name") (key_value overlay_name) resolved in
  Ok (Dict.set (KStr "_direct") (VBool true) resolved).

(** The body of [for overlay_name, overlay_def in overlays_section.items()]:
    [Some] of the element that is appended, [None] when nothing is. *)
Definition expand_entry (fuel : nat) (all_templates : dict)
    (external_conditionals : dict) (user_vars : dict) (overlay_name : Key)
    (overlay_def : Value) : res (option dict) :=
  match overlay_def with
  | VDict overlay_def =>
      match Dict.get (KStr "template") overlay_def with
      | Some template_call =>
          expand_template_entry fuel all_templates external_conditionals
            user_vars overlay_name overlay_def template_call
      | None =>
          match Dict.get (KStr "overlay") overlay_def with
          | Some (VDict overlay_config) =>
              let* resolved :=
                expand_direct_entry fuel user_vars overlay_name overlay_config in
              Ok (Some resolved)
          | _ => Ok None
          end
      end
  | _ => Ok None
  end.

Definition expand_entries (fuel : nat) (all_templates : dict)
    (external_conditionals : dict) (user_vars : dict)
    (overlays_section : dict) : res (list dict) :=
  foldM (fun expanded_overlays '(overlay_name, overlay_def) =>
           let* appended :=
             expand_entry fuel all_templates external_conditionals user_vars
               overlay_name overlay_def in
           match appended with
           | Some overlay => Ok (expanded_overlays ++ [overlay])%list
           | None => Ok expanded_overlays
           end)
        overlays_section [].

(** The processor object and the caller's dictionaries. *)
Record state : Type := State {
  template_cache : gmap string Value;
  heap : list dict
}.

(** The part of [expand_overlay_file] after the external templates:
    [local_templates], [all_templates] and the loop over the overlays. *)
Definition expand_overlays (fuel : nat) (data : dict)
    (external_templates : Value) (external_conditionals : dict)
    (user_vars : dict) : res (list dict) :=
  let local_templates := Dict.get_default (KStr "templates") (VDict []) data in
  match external_templates, local_templates with
  | VDict external_templates, VDict local_templates =>
      let all_templates := Dict.update external_templates local_templates in
      match Dict.get_default (KStr "overlays") (VDict []) data with
      | VDict overlays_section =>
          expand_entries fuel all_templates external_conditionals user_vars
            overlays_section
      | _ => Raise AttributeError
      end
  | _, _ => Raise TypeError
  end.

(** [if "external_templates" in data: ...], on the cache and on the
    [user_vars] object; it gives [external_templates] and
    [external_conditionals]. *)
Definition load_external (fs : filesystem) (st : state) (data : dict)
    (user_vars : nat) : state * res (Value * dict) :=
  match Dict.get (KStr "external_templates") data with
  | Some (VDict ext_tmpl) =>
      let template_source :=
        Dict.get_default (KStr "default") (VStr "templates") ext_tmpl in
      let '(cache, loaded) :=
        load_templates_from fs (template_cache st) template_source in
      match loaded with
      | Ok external_templates =>
          let '(ext_vars, ext_conds) := extract_external_template_vars ext_tmpl in
          let h :=
            fold_left
              (fun h '(ek, ev) =>
                 if Dict.mem ek (deref h user_vars) then h
                 else setitem h user_vars ek ev)
              ext_vars (heap st) in
          (State cache h, Ok (external_templates, ext_conds))
      | Raise e => (State cache (heap st), Raise e)
      | NoFuel => (State cache (heap st), NoFuel)
      end
  | _ => (st, Ok (VDict [], []))
  end.

(** [expand_overlay_file(file_path, user_template_variables)]; the second
    argument is [None] or the location of the caller's dictionary. *)
Definition expand_overlay_file (fuel : nat) (fs : filesystem) (st : state)
    (file_path : string) (user_template_variables : option nat)
    : state * res (list dict) :=
  match fs file_path with
  | ExistsRaises => (st, Raise OSError)
  | Missing | Present LoadFails => (st, Ok [])
  | Present (Loaded data) =>
      if negb (truthy data) then (st, Ok [])
      else
        (* user_template_variables or {} *)
        let '(h, variables) :=
          match user_template_variables with
          | Some l =>
              if truthy (VDict (deref (heap st) l)) then (heap st, l)
              else alloc (heap st) []
          | None => alloc (heap st) []
          end in
        let '(h, user_vars) := preprocess_template_variables h variables in
        let st := State (template_cache st) h in
        match data with
        | VDict data =>
            let '(st, external) := load_external fs st data user_vars in
            (st,
             let* (external_templates, external_conditionals) := external in
             expand_overlays fuel data external_templates external_conditionals
               (deref (heap st) user_vars))
        | VStr s =>
            (st, Raise (if Str.contains "external_templates" s
                        then TypeError else AttributeError))
        | VList l =>
            (st, Raise (if py_in (VStr "external_templates") l
                        then TypeError else AttributeError))
        | _ => (st, Raise TypeError)
        end
  end.

End Processor.

(** An instance of the container printer for the examples. *)
Definition sample_container_str (v : Value) : string :=
  match v with
  | VDict _ => "{...}"
  | _ => "[...]"
  end.


(** The objects at the locations below [n] are the same in [h] and [h']. *)
Definition unchanged_below (n : nat) (h h' : list dict) : Prop :=
  forall l : nat, l < n -> h' !! l = h !! l.

(** ** [get_overlay_keys_from_file] *)

(** The names of the overlay entries of a file, without expansion.  The
    [try] block covers [open] and [yaml.load] only. *)
Definition get_overlay_keys_from_file (fs : filesystem) (file_path : string)
    : res (list Key) :=
  match fs file_path with
  | ExistsRaises => Raise OSError
  | Missing | Present LoadFails => Ok []
  | Present (Loaded data) =>
      if negb (truthy data) then Ok []
      else match data with
           | VDict d =>
               match Dict.get (KStr "overlays") d with
               | None => Ok []
               | Some (VDict overlays) => Ok (map fst overlays)
               | Some _ => Raise AttributeError
               end
           | VStr s =>
               if Str.contains "overlays" s then Raise TypeError else Ok []
           | VList l =>
               if py_in (VStr "overlays") l then Raise TypeError else Ok []
           | _ => Raise TypeError
           end
  end.

(** ** Measures and predicates used in the statements *)

(** The number of [<] in a string. *)
Fixpoint count_open (s : string) : nat :=
  match s with
  | EmptyString => 0
  | String c s' => (if Ascii.eqb c "<" then 1 else 0) + count_open s'
  end.

(** No string inside the value holds [<<]. *)
Fixpoint open_free (v : Value) : bool :=
  match v with
  | VStr s => negb (Str.contains "<<" s)
  | VDict items =>
      (fix all (l : list (Key * Value)) : bool :=
         match l with
         | [] => true
         | (_, x) :: l' => (open_free x && all l')%bool
         end) items
  | VList elems =>
      (fix all (l : list Value) : bool :=
         match l with
         | [] => true
         | x :: l' => (open_free x && all l')%bool
         end) elems
  | _ => true
  end.

(** The largest number of [<] in a string inside the value. *)
Fixpoint max_open (v : Value) : nat :=
  match v with
  | VStr s => count_open s
  | VDict items =>
      (fix most (l : list (Key * Value)) : nat :=
         match l with
         | [] => 0
         | (_, x) :: l' => Nat.max (max_open x) (most l')
         end) items
  | VList elems =>
      (fix most (l : list Value) : nat :=
         match l with
         | [] => 0
         | x :: l' => Nat.max (max_open x) (most l')
         end) elems
  | _ => 0
  end.

(** The items of a dictionary have keys that differ: what every [dict]
    of the program satisfies. *)
Fixpoint dict_unique (d : dict) : bool :=
  match d with
  | [] => true
  | (k, _) :: d' => (negb (Dict.mem k d') && dict_unique d')%bool
  end.

(** The character [c] does not occur in the string. *)
Fixpoint lacks (c : ascii) (s : string) : bool :=
  match s with
  | EmptyString => true
  | String a s' => (negb (Ascii.eqb a c) && lacks c s')%bool
  end.

(** The keys that [preprocess_template_variables] looks at. *)
Definition rating_keys : list string := ["rating1"; "rating2"; "rating3"].

(** The last character of a string. *)
Fixpoint last_char (s : string) : option ascii :=
  match s with
  | EmptyString => None
  | String c EmptyString => Some c
  | String _ s' => last_char s'
  end.

(** ** Strings with placeholders, used in the statements *)











(** ** The specification's wording of three steps *)

(** As the specification words the seeding: [key] is added unless the
    caller's variables already bind it. *)
Definition seed_variables_spec (user_variables : dict) (key : Value) : dict :=
  if Dict.mem (KStr "key") user_variables then user_variables
  else Dict.set (KStr "key") key user_variables.


(** As the specification words [_template]: the labels of the calls whose
    template the library holds. *)
Definition used_call_labels (container_str : Value -> string)
    (all_templates : dict) (template_calls : list Value) : list Value :=
  map (call_label container_str)
    (List.filter (fun tmpl_call =>
               match call_parts tmpl_call with
               | Some (tmpl_name, _) =>
                   match value_key tmpl_name with
                   | Some k => Dict.mem k all_templates
                   | None => false
                   end
               | None => false
               end)
            template_calls).

(** ** Inputs of the examples *)

(** A library with the one template [a]. *)
Definition one_template_library : dict :=
  [(KStr "a", VDict [(KStr "overlay", VDict [(KStr "name", VStr "x")])])].

(** An entry that calls [a] and a template that the library lacks. *)
Definition two_call_entry : dict :=
  [(KStr "template", VList [VStr "a"; VStr "missing"])].

(** A template whose overlay shows the [key] variable. *)
Definition key_echo_template : dict :=
  [(KStr "overlay", VDict [(KStr "name", VStr "<<key>>")])].





(** A variable bound to its own placeholder. *)
Definition cyclic_variables : dict := [(KStr "x", VStr "<<x>>")].




(** A conditional whose second and third clauses are both met. *)
Definition two_match_spec : dict :=
  [(KStr "default", VStr "fallback");
   (KStr "conditions",
    VList [VDict [(KStr "absent", VStr "x"); (KStr "value", VStr "skipped")];
           VDict [(KStr "a", VInt 1); (KStr "value", VStr "first")];
           VDict [(KStr "a.not", VInt 2); (KStr "value", VStr "second")]])].

(** A conditional none of whose clauses is met. *)
Definition no_match_spec : dict :=
  [(KStr "default", VStr "fallback");
   (KStr "conditions",
    VList [VDict [(KStr "a", VInt 2); (KStr "value", VStr "other")]])].

(** Files: a template library in the defaults directory [d]. *)
Definition library_files : filesystem :=
  fun path =>
    if String.eqb path "d/templates.yml"
    then Present (Loaded (VDict [(KStr "templates",
                                  VDict one_template_library)]))
    else Missing.


(** Files on a system that refuses a path of more than 255 characters, and
    a source name of 300 characters. *)
Definition long_name_files : filesystem :=
  fun path => if 255 <? String.length path then ExistsRaises else Missing.

Definition long_name : string := String.concat "" (replicate 300 "a").

(** An overlay file with a template entry and a direct entry, and a caller
    whose variables use the rating shorthand. *)
Definition overlay_files : filesystem :=
  fun path =>
    if String.eqb path "overlays.yml"
    then Present (Loaded (VDict
           [(KStr "external_templates",
             VDict [(KStr "template_variables", VDict [(KStr "size", VInt 7)])]);
            (KStr "templates", VDict one_template_library);
            (KStr "overlays",
             VDict [(KStr "e", VDict two_call_entry);
                    (KStr "d", VDict [(KStr "overlay",
                                       VDict [(KStr "name", VStr "n<<size>>")])])])]))
    else Missing.

Definition caller_state : state :=
  State ∅ [[(KStr "rating1", VStr "user / rt_tomato")]].

(** The UTF-8 encoding of U+00A0, and variables whose shorthand ends with
    it. *)
Definition no_break_space : string :=
  String (ascii_of_nat 194) (String (ascii_of_nat 160) "").

Definition spaced_variables : dict :=
  [(KStr "rating2", VStr ("critic / rt" +:+ no_break_space))].

(** A direct entry whose value refers to the cyclic variable, a file that
    declares it, and a caller whose variables are [cyclic_variables]. *)
Definition cyclic_direct_entry : dict :=
  [(KStr "overlay", VDict [(KStr "name", VStr "b<<x>>")])].

Definition cyclic_overlay_files : filesystem :=
  fun path =>
    if String.eqb path "overlays.yml"
    then Present (Loaded (VDict [(KStr "overlays",
                                  VDict [(KStr "e", VDict cyclic_direct_entry)])]))
    else Missing.

Definition cyclic_caller_state : state := State ∅ [cyclic_variables].

(** A direct entry with a null value and a value to resolve. *)
Definition direct_entry : dict :=
  [(KStr "overlay", VDict [(KStr "z", VNone); (KStr "name", VStr "n<<size>>")])].

(** A direct entry all of whose values are null. *)
Definition null_entry : dict :=
  [(KStr "overlay", VDict [(KStr "z", VNone); (KStr "y", VNone)])].

(** A document with an [external_templates] block whose variables bind
    [rating1], which the caller of [caller_state] binds too, and [size]. *)
Definition external_defaults : dict :=
  [(KStr "external_templates",
    VDict [(KStr "template_variables",
            VDict [(KStr "rating1", VStr "critic"); (KStr "size", VInt 7)])])].

(** An entry with a [variables] block that does not bind [key]. *)
Definition variables_entry : dict :=
  [(KStr "variables", VDict [(KStr "a", VInt 1)])].

(** A file whose document is a scalar. *)
Definition scalar_files : filesystem :=
  fun _ => Present (Loaded (VStr "text")).

(** Variables whose texts hold no placeholder. *)
Definition closed_variables : dict := [(KStr "a", VStr "1"); (KStr "b", VInt 2)].

(** Variables for a nested placeholder. *)
Definition rating_variables : dict :=
  [(KStr "n", VInt 1); (KStr "rating1_font", VStr "Arial")].

(** An [external_templates] block that gives [font] twice. *)
Definition font_block : dict :=
  [(KStr "template_variables",
    VDict [(KStr "default", VDict [(KStr "font", VStr "A")]);
           (KStr "font", VStr "B")])].

(** A document with its own template [a] and an entry that calls it. *)
Definition local_template_document : dict :=
  [(KStr "templates", VDict one_template_library);
   (KStr "overlays", VDict [(KStr "e", VDict two_call_entry)])].

(** * Properties *)

(** ** Strings *)

Lemma str_app_assoc (s1 s2 s3 : string) :
  (s1 +:+ s2) +:+ s3 = s1 +:+ (s2 +:+ s3).
Proof. induction s1 as [|c s1 IH]; simpl; [reflexivity | now rewrite IH]. Qed.

Lemma str_app_nil_r (s : string) : s +:+ "" = s.
Proof. induction s as [|c s IH]; simpl; [reflexivity | now rewrite IH]. Qed.

Lemma str_length_app (s1 s2 : string) :
  String.length (s1 +:+ s2) = String.length s1 + String.length s2.
Proof. induction s1 as [|c s1 IH]; simpl; [reflexivity | now rewrite IH]. Qed.

Lemma prefix_app (s t : string) : String.prefix s (s +:+ t) = true.
Proof.
  induction s as [|c s IH]; simpl.
  - now destruct t.
  - destruct (ascii_dec c c); [exact IH | congruence].
Qed.

Lemma prefix_head_mismatch (a c : ascii) (o t : string) :
  Ascii.eqb c a = false -> String.prefix (String a o) (String c t) = false.
Proof.
  intros H. simpl. destruct (ascii_dec a c) as [->|]; [|reflexivity].
  now rewrite Ascii.eqb_refl in H.
Qed.

Lemma match_here_head (c : ascii) (t : string) :
  Ascii.eqb c "<" = false -> Str.match_here (String c t) = None.
Proof.
  destruct c as [[] [] [] [] [] [] [] []]; intros H;
    try discriminate H; reflexivity.
Qed.

Lemma match_here_prefix (s n : string) :
  Str.match_here s = Some n -> String.prefix "<<" s = true.
Proof.
  destruct s as [|c s]; [discriminate|].
  destruct (Ascii.eqb c "<") eqn:Hc.
  - apply Ascii.eqb_eq in Hc as ->.
    destruct s as [|c' s]; [discriminate|].
    destruct (Ascii.eqb c' "<") eqn:Hc'.
    + apply Ascii.eqb_eq in Hc' as ->. intros _. simpl. now destruct s.
    + destruct c' as [[] [] [] [] [] [] [] []]; try discriminate Hc';
        discriminate.
  - now rewrite match_here_head.
Qed.

Lemma span_name_close (x r : string) :
  Str.no_angle x = true ->
  Str.span_name (x +:+ String ">" r) = (x, String ">" r).
Proof.
  induction x as [|c x IH]; simpl; intros H; [reflexivity|].
  apply andb_prop in H as [Hc Hx]. apply negb_true_iff in Hc.
  now rewrite Hc, IH.
Qed.

Lemma match_here_placeholder (x post : string) :
  Str.is_name x = true ->
  Str.match_here (String "<" (String "<" (x +:+ String ">" (String ">" post))))
  = Some x.
Proof.
  intros H. apply andb_prop in H as [Hne Hx]. unfold Str.match_here.
  rewrite span_name_close by exact Hx.
  destruct x; [discriminate Hne | reflexivity].
Qed.

Lemma finditer_from_skip (s t : string) (k : nat) :
  Str.finditer_from (String.length s + k) (s +:+ t) = Str.finditer_from k t.
Proof. induction s as [|c s IH]; simpl; [reflexivity | exact IH]. Qed.

Lemma finditer_no_open (p t : string) :
  Str.no_open p = true ->
  Str.finditer_from 0 (p +:+ t) = Str.finditer_from 0 t.
Proof.
  induction p as [|c p IH]; intros H; [reflexivity|].
  simpl in H. apply andb_prop in H as [Hc Hp]. apply negb_true_iff in Hc.
  change (String c p +:+ t) with (String c (p +:+ t)).
  cbn [Str.finditer_from]. rewrite match_here_head by exact Hc. now apply IH.
Qed.

Lemma finditer_no_open_nil (p : string) :
  Str.no_open p = true -> Str.finditer p = [].
Proof.
  intros H. unfold Str.finditer.
  rewrite <- (str_app_nil_r p). now rewrite finditer_no_open.
Qed.

(** A string without [<<] holds no placeholder. *)
Lemma finditer_without_open (s : string) (k : nat) :
  Str.contains "<<" s = false -> Str.finditer_from k s = [].
Proof.
  revert k. induction s as [|c s IH]; intros k H; [reflexivity|].
  cbn [Str.contains] in H. apply orb_false_iff in H as [Hp Hs].
  cbn [Str.finditer_from]. destruct k as [|k]; [|now apply IH].
  destruct (Str.match_here (String c s)) as [n|] eqn:Hm.
  - apply match_here_prefix in Hm. congruence.
  - now apply IH.
Qed.

Lemma replace_from_skip (old new s t : string) (k : nat) :
  Str.replace_from old new (String.length s + k) (s +:+ t)
  = Str.replace_from old new k t.
Proof. induction s as [|c s IH]; simpl; [reflexivity | exact IH]. Qed.

Lemma replace_no_open (o new p t : string) :
  Str.no_open p = true ->
  Str.replace_from (String "<" o) new 0 (p +:+ t)
  = p +:+ Str.replace_from (String "<" o) new 0 t.
Proof.
  induction p as [|c p IH]; intros H; [reflexivity|].
  simpl in H. apply andb_prop in H as [Hc Hp]. apply negb_true_iff in Hc.
  change (String c p +:+ t) with (String c (p +:+ t)).
  cbn [Str.replace_from]. rewrite prefix_head_mismatch by exact Hc.
  now rewrite IH.
Qed.

Lemma replace_occurrence (a : ascii) (o new t : string) :
  Str.replace_from (String a o) new 0 (String a o +:+ t)
  = new +:+ Str.replace_from (String a o) new 0 t.
Proof.
  change (String a o +:+ t) with (String a (o +:+ t)).
  cbn [Str.replace_from].
  change (String a (o +:+ t)) with (String a o +:+ t).
  rewrite prefix_app. cbn [String.length]. rewrite Nat.sub_1_r. cbn [Nat.pred].
  rewrite <- (Nat.add_0_r (String.length o)). now rewrite replace_from_skip.
Qed.

Lemma replace_no_open_id (o new p : string) :
  Str.no_open p = true -> Str.replace_from (String "<" o) new 0 p = p.
Proof.
  intros H. rewrite <- (str_app_nil_r p) at 1.
  rewrite replace_no_open by exact H. simpl. apply str_app_nil_r.
Qed.

Lemma no_open_app (s t : string) :
  Str.no_open (s +:+ t) = (Str.no_open s && Str.no_open t)%bool.
Proof.
  induction s as [|c s IH]; simpl; [reflexivity|].
  rewrite IH. now rewrite andb_assoc.
Qed.

(** ** Dictionaries and loops *)

Lemma key_eqb_refl (k : Key) : key_eqb k k = true.
Proof.
  destruct k as [|b|z|s]; simpl;
    [reflexivity | apply Z.eqb_refl | apply Z.eqb_refl | apply String.eqb_refl].
Qed.

Lemma key_eqb_str_l (s : string) (k : Key) :
  key_eqb (KStr s) k = true -> k = KStr s.
Proof.
  destruct k as [|b|z|t]; simpl; try discriminate.
  intros H. apply String.eqb_eq in H. now subst.
Qed.

Lemma key_eqb_str_r (s : string) (k : Key) :
  key_eqb k (KStr s) = true -> k = KStr s.
Proof.
  destruct k as [|b|z|t]; simpl; try discriminate.
  intros H. apply String.eqb_eq in H. now subst.
Qed.

Lemma dict_set_elem (k k' : Key) (v v' : Value) (d : dict) :
  (k', v') ∈ Dict.set k v d ->
  (k', v') ∈ d \/ (v' = v /\ key_eqb k k' = true).
Proof.
  induction d as [|[k0 v0] d IH]; simpl.
  - intros H. apply list_elem_of_singleton in H. injection H as -> ->.
    right. split; [reflexivity | apply key_eqb_refl].
  - destruct (key_eqb k k0) eqn:E; intros H; apply elem_of_cons in H as [H|H].
    + injection H as -> ->. now right.
    + left. now apply elem_of_cons; right.
    + left. rewrite H. now apply elem_of_cons; left.
    + destruct (IH H) as [H'|H']; [left | now right].
      now apply elem_of_cons; right.
Qed.

Lemma dict_get_set_same (k : Key) (v : Value) (d : dict) :
  Dict.get k (Dict.set k v d) = Some v.
Proof.
  induction d as [|[k0 v0] d IH]; simpl.
  - now rewrite key_eqb_refl.
  - destruct (key_eqb k k0) eqn:E; simpl; now rewrite E.
Qed.

Lemma dict_get_set_str_other (s : string) (k : Key) (v : Value) (d : dict) :
  k <> KStr s ->
  Dict.get (KStr s) (Dict.set k v d) = Dict.get (KStr s) d.
Proof.
  intros Hk.
  assert (Hks : key_eqb (KStr s) k = false).
  { destruct (key_eqb (KStr s) k) eqn:E; [|reflexivity].
    apply key_eqb_str_l in E. congruence. }
  induction d as [|[k0 v0] d IH]; cbn [Dict.get Dict.set].
  - now rewrite Hks.
  - destruct (key_eqb k k0) eqn:E; cbn [Dict.get].
    + destruct (key_eqb (KStr s) k0) eqn:E0; [|reflexivity].
      apply key_eqb_str_l in E0. subst k0.
      apply key_eqb_str_r in E. congruence.
    + now rewrite IH.
Qed.

Lemma key_eqb_sym (a b : Key) : key_eqb a b = key_eqb b a.
Proof.
  destruct a, b; simpl; try reflexivity;
    first [apply Z.eqb_sym | apply String.eqb_sym].
Qed.

Lemma key_eqb_trans (a b c : Key) :
  key_eqb a b = true -> key_eqb b c = true -> key_eqb a c = true.
Proof.
  destruct a, b, c; simpl; try discriminate; try reflexivity;
    rewrite ?Z.eqb_eq, ?String.eqb_eq; congruence.
Qed.

Lemma key_eqb_congr (a b k : Key) :
  key_eqb a b = true -> key_eqb a k = key_eqb b k.
Proof.
  intros H. destruct (key_eqb b k) eqn:E.
  - now apply (key_eqb_trans a b k).
  - destruct (key_eqb a k) eqn:E'; [|reflexivity].
    rewrite key_eqb_sym in H.
    now rewrite (key_eqb_trans b a k H E') in E.
Qed.

Lemma dict_get_congr (a b : Key) (d : dict) :
  key_eqb a b = true -> Dict.get a d = Dict.get b d.
Proof.
  intros H. induction d as [|[k v] d IH]; cbn [Dict.get]; [reflexivity|].
  rewrite (key_eqb_congr a b k H). now rewrite IH.
Qed.

Lemma dict_get_set_eq (k k' : Key) (v : Value) (d : dict) :
  key_eqb k k' = true -> Dict.get k' (Dict.set k v d) = Some v.
Proof.
  intros H. rewrite <- (dict_get_congr k k' _ H). apply dict_get_set_same.
Qed.

Lemma dict_get_set_ne (k k' : Key) (v : Value) (d : dict) :
  key_eqb k k' = false -> Dict.get k' (Dict.set k v d) = Dict.get k' d.
Proof.
  intros H. induction d as [|[k0 v0] d IH]; cbn [Dict.get Dict.set].
  - now rewrite key_eqb_sym, H.
  - destruct (key_eqb k k0) eqn:E; cbn [Dict.get]; [|now rewrite IH].
    assert (E' : key_eqb k' k0 = false).
    { destruct (key_eqb k' k0) eqn:E'; [|reflexivity].
      rewrite key_eqb_sym in E'.
      now rewrite (key_eqb_trans k k0 k' E E') in H. }
    now rewrite E'.
Qed.


(** A property that every turn of a loop keeps holds when the loop ends. *)
Lemma foldM_invariant {A B : Type} (P : B -> Prop) (f : B -> A -> res B)
    (l : list A) (acc r : B) :
  P acc ->
  (forall b a b', a ∈ l -> P b -> f b a = Ok b' -> P b') ->
  foldM f l acc = Ok r ->
  P r.
Proof.
  revert acc. induction l as [|x l IH]; intros acc Hacc Hstep; simpl.
  - intros [= <-]. exact Hacc.
  - destruct (f acc x) as [b| |] eqn:E; simpl; try discriminate.
    apply IH.
    + apply (Hstep acc x b); [now apply elem_of_cons; left | assumption..].
    + intros b0 a b' Ha. apply Hstep. now apply elem_of_cons; right.
Qed.

Lemma bind_ok {A B : Type} (m : res A) (k : A -> res B) (b : B) :
  bind m k = Ok b -> exists a, m = Ok a /\ k a = Ok b.
Proof. destruct m as [a| |]; simpl; try discriminate. intros H. now exists a. Qed.

(** ** The resolver *)

Section ResolverFacts.

Variable container_str : Value -> string.

Lemma placeholder_unfold (x : string) :
  placeholder x = String "<" (String "<" (x +:+ ">>")).
Proof. reflexivity. Qed.

Lemma finditer_placeholder_in_context (pre x post : string) :
  Str.is_name x = true ->
  Str.no_open pre = true ->
  Str.no_open post = true ->
  Str.finditer (pre +:+ placeholder x +:+ post) = [x].
Proof.
  intros Hx Hpre Hpost. unfold Str.finditer.
  rewrite finditer_no_open by exact Hpre.
  rewrite placeholder_unfold. simpl String.append.
  rewrite str_app_assoc. simpl String.append.
  cbn [Str.finditer_from]. rewrite match_here_placeholder by exact Hx.
  f_equal. rewrite Nat.add_comm. cbn [Nat.add Str.finditer_from].
  change (S (S (String.length x))) with (2 + String.length x).
  rewrite Nat.add_comm, finditer_from_skip. cbn [Str.finditer_from].
  now apply finditer_no_open_nil.
Qed.

Lemma replace_placeholder_in_context (pre x new post : string) :
  Str.no_open pre = true ->
  Str.no_open post = true ->
  Str.replace (placeholder x) new (pre +:+ placeholder x +:+ post)
  = pre +:+ new +:+ post.
Proof.
  intros Hpre Hpost. unfold Str.replace. rewrite placeholder_unfold.
  rewrite replace_no_open by exact Hpre.
  rewrite replace_occurrence.
  now rewrite replace_no_open_id by exact Hpost.
Qed.

Lemma placeholder_in_context_neq (pre x post : string) :
  pre <> "" \/ post <> "" ->
  String.eqb (pre +:+ placeholder x +:+ post) (placeholder x) = false.
Proof.
  intros H. apply String.eqb_neq. intros E.
  apply (f_equal String.length) in E.
  rewrite !str_length_app in E.
  destruct H as [H|H]; [destruct pre | destruct post];
    try congruence; simpl in E; lia.
Qed.

Lemma placeholder_has_open (x : string) : Str.no_open (placeholder x) = false.
Proof. reflexivity. Qed.

(** A string without placeholder leaves the loops at once. *)
Lemma for_depth_no_match (fuel n : nat) (variables : dict) (s : string) :
  Str.finditer s = [] ->
  for_depth container_str (S fuel) variables n s = Ok (VStr s).
Proof.
  intros H. destruct n as [|n]; [reflexivity|].
  cbn [for_depth while_true]. unfold while_body. rewrite H.
  now rewrite String.eqb_refl.
Qed.

Lemma while_body_cycle :
  while_body container_str cyclic_variables "b<<x>>"
  = Some (Next "b<<x>>" true).
Proof. reflexivity. Qed.

Lemma while_true_cycle (fuel : nat) :
  while_true container_str fuel cyclic_variables "b<<x>>" = NoFuel.
Proof.
  induction fuel as [|fuel IH]; [reflexivity|].
  cbn [while_true]. rewrite while_body_cycle. exact IH.
Qed.

(** C1: [resolve_variable] does not return on every input.  With the
    variable [x] bound to the string [<<x>>], resolving [b<<x>>] makes a
    replacement at every turn of the inner [while True] loop and leaves the
    string as it was, so that loop is never left, whatever number of turns
    it is given and whatever [max_depth] (at least one) is. *)
Theorem resolve_variable_cycle_never_returns :
  while_body container_str cyclic_variables "b<<x>>"
    = Some (Next "b<<x>>" true)
  /\ forall fuel max_depth : nat,
      resolve_variable container_str fuel (VStr "b<<x>>") cyclic_variables
        (S max_depth) = NoFuel.
Proof.
  split; [reflexivity|]. intros fuel max_depth.
  cbn [resolve_variable for_depth]. now rewrite while_true_cycle.
Qed.

End ResolverFacts.

(** ** Strings made of literal text and placeholders *)

Lemma no_angle_no_open (s : string) :
  Str.no_angle s = true -> Str.no_open s = true.
Proof.
  induction s as [|c s IH]; simpl; [reflexivity|]. intros H.
  apply andb_prop in H as [Hc Hs]. apply negb_true_iff in Hc.
  unfold Str.is_angle in Hc. apply orb_false_iff in Hc as [Hc _].
  now rewrite Hc, IH.
Qed.

Lemma prefix_cons_same (a : ascii) (o t : string) :
  String.prefix (String a o) (String a t) = String.prefix o t.
Proof. simpl. destruct (ascii_dec a a); [reflexivity | congruence]. Qed.

Lemma placeholder_app (x t : string) :
  placeholder x +:+ t = String "<" (String "<" (x +:+ String ">" (String ">" t))).
Proof. rewrite placeholder_unfold. simpl. now rewrite str_app_assoc. Qed.








Section Segments.

Variable container_str : Value -> string.
Variable variables : dict.












End Segments.

Section SubstitutionFacts.

Variable container_str : Value -> string.


End SubstitutionFacts.

(** ** The template processor *)

Section TemplateFacts.

Variable container_str : Value -> string.


Lemma hashed_str (v : Value) (s : string) :
  hashed v = Ok (KStr s) -> v = VStr s.
Proof. destruct v; simpl; intros H; try discriminate H; now injection H as ->. Qed.






End TemplateFacts.

(** ** The conditional evaluator *)

Section ConditionalFacts.

Variable container_str : Value -> string.

(** A clause whose checks all pass is met. *)
Lemma condition_met_all_pass (fuel : nat) (variables condition : dict) :
  checks_pass container_str fuel variables condition ->
  condition_met container_str fuel variables condition = Ok true.
Proof.
  induction 1 as [|[k v] rest Hkv _ IH]; [reflexivity|].
  cbn [condition_met]. simpl in Hkv.
  destruct (key_eqb k (KStr "value")); [exact IH|].
  rewrite Hkv by reflexivity. exact IH.
Qed.

(** A clause is not met when one of its checks fails after the checks
    before it have passed. *)
Lemma condition_met_check_fails (fuel : nat) (variables before after : dict)
    (k : Key) (v : Value) :
  checks_pass container_str fuel variables before ->
  key_eqb k (KStr "value") = false ->
  check container_str fuel variables k v = Ok false ->
  condition_met container_str fuel variables (before ++ (k, v) :: after)%list
  = Ok false.
Proof.
  intros Hb Hk Hc. induction Hb as [|[k0 v0] before Hkv _ IH].
  - cbn [app condition_met]. now rewrite Hk, Hc.
  - cbn [app condition_met]. simpl in Hkv.
    destruct (key_eqb k0 (KStr "value")); [exact IH|].
    rewrite Hkv by reflexivity. exact IH.
Qed.

Lemma scan_conditions_skip (fuel : nat) (variables : dict) (clause : Value)
    (rest : list Value) (resolved_value : Value) :
  clause_fails container_str fuel variables clause ->
  scan_conditions container_str fuel variables (clause :: rest) resolved_value
  = scan_conditions container_str fuel variables rest resolved_value.
Proof.
  intros H. destruct clause as [| | | |condition|]; try reflexivity.
  destruct H as (before & after & k & v & -> & Hb & Hk & Hc).
  cbn [scan_conditions].
  now rewrite (condition_met_check_fails fuel variables before after k v).
Qed.

Lemma scan_conditions_first_match (fuel : nat) (variables : dict)
    (pre post : list Value) (c : dict) (resolved_value : Value) :
  Forall (clause_fails container_str fuel variables) pre ->
  checks_pass container_str fuel variables c ->
  scan_conditions container_str fuel variables (pre ++ VDict c :: post)%list
    resolved_value
  = Ok (Dict.get_default (KStr "value") VNone c).
Proof.
  intros Hpre Hc. induction Hpre as [|x pre Hx _ IH].
  - cbn [app scan_conditions]. now rewrite condition_met_all_pass.
  - cbn [app]. now rewrite scan_conditions_skip.
Qed.

Lemma scan_conditions_no_match (fuel : nat) (variables : dict)
    (conditions : list Value) (resolved_value : Value) :
  Forall (clause_fails container_str fuel variables) conditions ->
  scan_conditions container_str fuel variables conditions resolved_value
  = Ok resolved_value.
Proof.
  induction 1 as [|x l Hx _ IH]; [reflexivity|].
  now rewrite scan_conditions_skip.
Qed.

(** C4: the evaluation of a conditional starts from its default and scans
    the clauses in declared order.  The first clause whose checks all pass
    (each clause before it having a check that fails, or not being a
    mapping) gives the result, its [value] entry, whatever the later clauses
    are; when no clause is met the default is the result.  In both cases
    the selected value goes through the resolver. *)
Theorem evaluate_conditional_first_match (fuel : nat) (cond_def variables : dict) :
  (forall (pre post : list Value) (c : dict),
     iter_conditions
       (Dict.get_default (KStr "conditions") (VList []) cond_def)
       = Ok (pre ++ VDict c :: post)%list ->
     Forall (clause_fails container_str fuel variables) pre ->
     checks_pass container_str fuel variables c ->
     evaluate_conditional container_str fuel cond_def variables
     = resolve container_str fuel
         (Dict.get_default (KStr "value") VNone c) variables)
  /\ (forall conditions : list Value,
        iter_conditions
          (Dict.get_default (KStr "conditions") (VList []) cond_def)
          = Ok conditions ->
        Forall (clause_fails container_str fuel variables) conditions ->
        evaluate_conditional container_str fuel cond_def variables
        = resolve container_str fuel
            (Dict.get_default (KStr "default") VNone cond_def) variables).
Proof.
  split.
  - intros pre post c Hiter Hpre Hc. unfold evaluate_conditional.
    rewrite Hiter. cbn [bind].
    now rewrite scan_conditions_first_match.
  - intros conditions Hiter Hnone. unfold evaluate_conditional.
    rewrite Hiter. cbn [bind].
    now rewrite scan_conditions_no_match.
Qed.

End ConditionalFacts.

(** ** The stages of [process_template] *)

Section StageFacts.

Variable container_str : Value -> string.

Lemma key_eqb_str_sym (s : string) (k : Key) :
  key_eqb k (KStr s) = key_eqb (KStr s) k.
Proof. destruct k; simpl; try reflexivity. apply String.eqb_sym. Qed.

Lemma dict_get_set_str_key (s : string) (k : Key) (v : Value) (d : dict) :
  key_eqb (KStr s) k = false ->
  Dict.get k (Dict.set (KStr s) v d) = Dict.get k d.
Proof.
  intros Hk. induction d as [|[k0 v0] d IH]; cbn [Dict.get Dict.set].
  - now rewrite key_eqb_str_sym, Hk.
  - destruct (key_eqb (KStr s) k0) eqn:E; cbn [Dict.get].
    + apply key_eqb_str_l in E. subst k0.
      now rewrite key_eqb_str_sym, Hk.
    + now rewrite IH.
Qed.

Lemma dict_get_set_id (k0 k : Key) (v : Value) (d : dict) :
  Dict.get k0 d = Some v -> Dict.get k (Dict.set k0 v d) = Dict.get k d.
Proof.
  induction d as [|[k1 v1] d IH]; cbn [Dict.get Dict.set]; [discriminate|].
  destruct (key_eqb k0 k1) eqn:E; cbn [Dict.get].
  - now intros [= ->].
  - intros H. now rewrite IH.
Qed.

(** C5, as the code has it: [process_template] copies the caller's
    variables and then binds [key] to its [key] argument, whether or not
    the caller's variables bind [key]; the other bindings are the
    caller's.  When the argument is the caller's own [key] binding, as in
    the call from [expand_overlay_file], every binding is the caller's. *)
Theorem seed_variables_key_is_argument (user_variables : dict) (key : Value) :
  Dict.get (KStr "key") (seed_variables user_variables key) = Some key
  /\ (forall k : Key,
        key_eqb (KStr "key") k = false ->
        Dict.get k (seed_variables user_variables key)
        = Dict.get k user_variables)
  /\ (Dict.get (KStr "key") user_variables = Some key ->
      forall k : Key,
        Dict.get k (seed_variables user_variables key)
        = Dict.get k user_variables).
Proof.
  unfold seed_variables. split; [apply dict_get_set_same|]. split.
  - intros k Hk. now apply dict_get_set_str_key.
  - intros H k. now apply dict_get_set_id.
Qed.







End StageFacts.

(** ** The template loader *)

Section LoaderFacts.

Variable defaults_dir : string.


(** C7: [load_templates] does not give a value for every source string.
    [template_path.exists()] is called before the [try] block, so what it
    raises is not caught: for a source that is not cached and whose path
    the system refuses, [OSError] leaves [load_templates] and the cache is
    as it was.  A source name of 300 characters is such a source on a
    system that refuses paths of more than 255 characters. *)
Theorem load_templates_exists_raises :
  (forall (fs : filesystem) (cache : gmap string Value)
          (template_source : string),
     cache !! template_source = None ->
     fs (template_path defaults_dir template_source) = ExistsRaises ->
     load_templates defaults_dir fs cache template_source
     = (cache, Raise OSError))
  /\ load_templates "d" long_name_files ∅ long_name = (∅, Raise OSError).
Proof.
  split; [|reflexivity].
  intros fs cache template_source Hc Hfs. unfold load_templates.
  now rewrite Hc, Hfs.
Qed.


End LoaderFacts.

(** ** The overlay file expander *)

Section ExpanderFacts.

Variable container_str : Value -> string.
Variable defaults_dir : string.

Lemma join_labels_ok (labels : list Value) (names : list string) :
  join_labels labels = Ok names -> labels = map VStr names.
Proof.
  revert names. induction labels as [|x labels IH]; intros names; cbn [join_labels].
  - now intros [= <-].
  - destruct x; try discriminate. intros H.
    apply bind_ok in H as (r & Hr & H). injection H as <-.
    cbn [map]. now rewrite (IH r Hr).
Qed.

(** C8, as the code has it: the element appended for an entry with a
    [template] field carries, under [_template], the labels of all the
    template calls of the entry joined by a comma and a space (the call
    itself when it is a string, its [name] when it is a mapping), whether
    or not the library holds the template; [_original_name] is the name
    of the entry. *)
Theorem template_field_joins_all_calls (fuel : nat)
    (all_templates external_conditionals user_vars : dict) (overlay_name : Key)
    (overlay_def : dict) (template_call : Value) (elem : dict) :
  expand_template_entry container_str fuel all_templates external_conditionals
    user_vars overlay_name overlay_def template_call = Ok (Some elem) ->
  exists names : list string,
    map (call_label container_str) (template_calls_of template_call)
      = map VStr names
    /\ Dict.get (KStr "_template") elem = Some (VStr (Str.join ", " names))
    /\ Dict.get (KStr "_original_name") elem = Some (key_value overlay_name).
Proof.
  unfold expand_template_entry.
  intros H. apply bind_ok in H as (overlay_vars & _ & H).
  apply bind_ok in H as (merged & _ & H).
  destruct (truthy (VDict merged)); [|discriminate].
  apply bind_ok in H as (names & Hn & H). injection H as <-.
  exists names. split; [now apply join_labels_ok|]. split.
  - apply dict_get_set_same.
  - rewrite dict_get_set_str_other by discriminate. apply dict_get_set_same.
Qed.

Lemma unchanged_below_refl (n : nat) (h : list dict) : unchanged_below n h h.
Proof. now intros l _. Qed.

Lemma unchanged_below_trans (n : nat) (h1 h2 h3 : list dict) :
  unchanged_below n h1 h2 -> unchanged_below n h2 h3 -> unchanged_below n h1 h3.
Proof. intros H12 H23 l Hl. now rewrite H23, H12. Qed.

Lemma alloc_unchanged (h : list dict) (d : dict) :
  unchanged_below (length h) h (fst (alloc h d)) /\ snd (alloc h d) = length h.
Proof.
  split; [|reflexivity]. intros l Hl. cbn [alloc fst].
  now apply lookup_app_l.
Qed.

Lemma setitem_unchanged (n l : nat) (h : list dict) (k : Key) (v : Value) :
  n <= l -> unchanged_below n h (setitem h l k v).
Proof.
  intros Hn l' Hl'. unfold setitem. apply list_lookup_insert_ne. lia.
Qed.

Lemma expand_rating_unchanged (n result : nat) (h : list dict) (i : Z) :
  n <= result -> unchanged_below n h (expand_rating result h i).
Proof.
  intros Hn. unfold expand_rating.
  destruct (Dict.get _ (deref h result)) as [[| | |value| |]|];
    try apply unchanged_below_refl.
  destruct (Str.contains " / " value); [|apply unchanged_below_refl].
  destruct (Str.split_once " / " value) as [[rating_type rating_image]|];
    [|apply unchanged_below_refl].
  eapply unchanged_below_trans; now apply setitem_unchanged.
Qed.

Lemma fold_left_unchanged {A : Type} (n : nat) (f : list dict -> A -> list dict)
    (l : list A) (h : list dict) :
  (forall h a, unchanged_below n h (f h a)) ->
  unchanged_below n h (fold_left f l h).
Proof.
  intros Hf. revert h. induction l as [|a l IH]; intros h; cbn [fold_left].
  - apply unchanged_below_refl.
  - eapply unchanged_below_trans; [apply Hf | apply IH].
Qed.

(** [preprocess_template_variables] writes to its copy only. *)
Lemma preprocess_unchanged (h : list dict) (variables : nat) :
  unchanged_below (length h) h (fst (preprocess_template_variables h variables))
  /\ snd (preprocess_template_variables h variables) = length h.
Proof.
  unfold preprocess_template_variables.
  destruct (alloc_unchanged h (deref h variables)) as [Ha Hl].
  destruct (alloc h (deref h variables)) as [h1 result]. cbn [fst snd] in *.
  subst result. split; [|reflexivity].
  eapply unchanged_below_trans; [exact Ha|].
  apply fold_left_unchanged. intros h' i. now apply expand_rating_unchanged.
Qed.

(** The external variables are written to [user_vars] only. *)
Lemma load_external_unchanged (fs : filesystem) (st : state) (data : dict)
    (n user_vars : nat) :
  n <= user_vars ->
  unchanged_below n (heap st)
    (heap (fst (load_external defaults_dir fs st data user_vars))).
Proof.
  intros Hn. unfold load_external.
  destruct (Dict.get (KStr "external_templates") data) as [[| | | |ext_tmpl|]|];
    try apply unchanged_below_refl.
  destruct (load_templates_from defaults_dir fs (template_cache st) _)
    as [cache [external_templates|e|]];
    try apply unchanged_below_refl.
  destruct (extract_external_template_vars ext_tmpl) as [ext_vars ext_conds].
  cbn [fst heap]. apply fold_left_unchanged.
  intros h [ek ev]. destruct (Dict.mem ek (deref h user_vars));
    [apply unchanged_below_refl | now apply setitem_unchanged].
Qed.

(** C9: [expand_overlay_file] changes no dictionary that exists when it is
    called, the caller's variables among them: whatever the outcome, every
    object of the store is afterwards what it was before. *)
Theorem expand_overlay_file_keeps_caller_variables (fuel : nat)
    (fs : filesystem) (st : state) (file_path : string)
    (user_template_variables : option nat) (l : nat) (d : dict) :
  heap st !! l = Some d ->
  heap (fst (expand_overlay_file container_str defaults_dir fuel fs st
               file_path user_template_variables)) !! l = Some d.
Proof.
  intros Hl.
  assert (Hlt : l < length (heap st)) by (now apply lookup_lt_Some in Hl).
  rewrite <- Hl. clear Hl d. revert l Hlt.
  change (unchanged_below (length (heap st)) (heap st)
            (heap (fst (expand_overlay_file container_str defaults_dir fuel fs
                          st file_path user_template_variables)))).
  unfold expand_overlay_file.
  destruct (fs file_path) as [| |[|data]]; try apply unchanged_below_refl.
  destruct (truthy data); cbn [negb]; [|apply unchanged_below_refl].
  set (a := match user_template_variables with
            | Some l0 =>
                if truthy (VDict (deref (heap st) l0)) then (heap st, l0)
                else alloc (heap st) []
            | None => alloc (heap st) []
            end).
  assert (Ha : unchanged_below (length (heap st)) (heap st) (fst a)
               /\ length (heap st) <= length (fst a)).
  { unfold a. destruct user_template_variables as [l0|];
      [destruct (truthy (VDict (deref (heap st) l0)))|];
      cbn [alloc fst]; (split; [|rewrite ?length_app; lia]);
      try apply unchanged_below_refl; apply alloc_unchanged. }
  destruct a as [h variables]. cbn [fst] in Ha. destruct Ha as [Ha Hlen].
  destruct (preprocess_unchanged h variables) as [Hp Hr].
  destruct (preprocess_template_variables h variables) as [h' user_vars].
  cbn [fst snd] in Hp, Hr.
  assert (Hh' : unchanged_below (length (heap st)) (heap st) h').
  { eapply unchanged_below_trans; [exact Ha|].
    intros l Hl. apply Hp. lia. }
  destruct data as [| | | |data|]; cbn [fst heap]; try exact Hh'.
  pose proof (load_external_unchanged fs (State (template_cache st) h') data
                (length (heap st)) user_vars) as He.
  destruct (load_external defaults_dir fs (State (template_cache st) h') data
              user_vars) as [st' external].
  cbn [fst heap] in *. eapply unchanged_below_trans; [exact Hh'|].
  apply He. lia.
Qed.

(** Induction on values, through the items of dictionaries and lists. *)
Lemma Value_nested_ind (P : Value -> Prop) :
  P VNone ->
  (forall b, P (VBool b)) ->
  (forall z, P (VInt z)) ->
  (forall s, P (VStr s)) ->
  (forall items, Forall (fun kv : Key * Value => P (snd kv)) items ->
                 P (VDict items)) ->
  (forall elems, Forall P elems -> P (VList elems)) ->
  forall v, P v.
Proof.
  intros HN HB HZ HS HD HL. fix IH 1. intros [| b | z | s | items | elems].
  - exact HN.
  - apply HB.
  - apply HZ.
  - apply HS.
  - apply HD. induction items as [|[k v] items IHitems]; constructor;
      [apply IH | exact IHitems].
  - apply HL. induction elems as [|v elems IHelems]; constructor;
      [apply IH | exact IHelems].
Qed.

(** The loop of a direct entry: it ends with a dictionary when the
    resolver returns on every declared value. *)
Lemma direct_loop_returns (fuel : nat) (user_vars overlay_config acc : dict) :
  Forall (fun kv : Key * Value =>
            exists r, resolve container_str fuel (snd kv) user_vars = Ok r)
         overlay_config ->
  exists resolved,
    foldM (fun resolved '(ok, ov) =>
             let* resolved_value := resolve container_str fuel ov user_vars in
             if is_none resolved_value then Ok resolved
             else Ok (Dict.set ok resolved_value resolved))
          overlay_config acc = Ok resolved.
Proof.
  intros H. revert acc. induction H as [|[ok ov] cfg [r Hr] _ IH]; intros acc.
  - now exists acc.
  - cbn [foldM]. simpl in Hr. rewrite Hr. cbn [bind].
    destruct (is_none r); apply IH.
Qed.

Lemma direct_loop_all_none (fuel : nat) (user_vars overlay_config acc : dict) :
  Forall (fun kv : Key * Value => snd kv = VNone) overlay_config ->
  foldM (fun resolved '(ok, ov) =>
           let* resolved_value := resolve container_str fuel ov user_vars in
           if is_none resolved_value then Ok resolved
           else Ok (Dict.set ok resolved_value resolved))
        overlay_config acc = Ok acc.
Proof.
  induction 1 as [|[ok ov] cfg Hov _ IH]; [reflexivity|].
  simpl in Hov. subst ov. cbn [foldM]. exact IH.
Qed.

(** X25: the branches of [expand_entry].  An entry without [template] field
    whose [overlay] field is a mapping is never passed over: when the
    resolver returns on each of its declared values, an element with
    [_original_name] and [_direct] is appended, and when every declared
    value is [None] that element holds these two fields only.  An entry with
    a [template] field is appended only when the merged result of its calls
    is not empty. *)
Theorem direct_entry_always_appended (fuel : nat)
    (all_templates external_conditionals user_vars : dict) (overlay_name : Key)
    (overlay_def : dict) :
  (forall overlay_config : dict,
     Dict.get (KStr "template") overlay_def = None ->
     Dict.get (KStr "overlay") overlay_def = Some (VDict overlay_config) ->
     (Forall (fun kv : Key * Value =>
                exists r, resolve container_str fuel (snd kv) user_vars = Ok r)
             overlay_config ->
      exists elem,
        expand_entry container_str fuel all_templates external_conditionals
          user_vars overlay_name (VDict overlay_def) = Ok (Some elem)
        /\ Dict.get (KStr "_original_name") elem = Some (key_value overlay_name)
        /\ Dict.get (KStr "_direct") elem = Some (VBool true))
     /\ (Forall (fun kv : Key * Value => snd kv = VNone) overlay_config ->
         expand_entry container_str fuel all_templates external_conditionals
           user_vars overlay_name (VDict overlay_def)
         = Ok (Some [(KStr "_original_name", key_value overlay_name);
                     (KStr "_direct", VBool true)]))
     /\ expand_entry container_str fuel all_templates external_conditionals
          user_vars overlay_name (VDict overlay_def) <> Ok None)
  /\ (forall (template_call : Value) (overlay_vars merged : dict),
        Dict.get (KStr "template") overlay_def = Some template_call ->
        entry_variables user_vars overlay_name overlay_def = Ok overlay_vars ->
        foldM (apply_call container_str fuel all_templates external_conditionals
                 overlay_vars)
              (template_calls_of template_call) [] = Ok merged ->
        (merged = [] ->
         expand_entry container_str fuel all_templates external_conditionals
           user_vars overlay_name (VDict overlay_def) = Ok None)
        /\ (forall elem,
              expand_entry container_str fuel all_templates external_conditionals
                user_vars overlay_name (VDict overlay_def) = Ok (Some elem) ->
              merged <> [])).
Proof.
  split.
  - intros overlay_config Ht Ho. cbn [expand_entry]. rewrite Ht, Ho.
    unfold expand_direct_entry. repeat split.
    + intros Hres.
      destruct (direct_loop_returns fuel user_vars overlay_config [] Hres)
        as [resolved ->].
      cbn [bind]. eexists. split; [reflexivity|]. split.
      * rewrite dict_get_set_str_other by discriminate. apply dict_get_set_same.
      * apply dict_get_set_same.
    + intros Hnone. now rewrite direct_loop_all_none.
    + match goal with
      | |- bind (bind ?m _) _ <> _ => destruct m
      end; discriminate.
  - intros template_call overlay_vars merged Ht Hv Hm.
    cbn [expand_entry]. rewrite Ht. unfold expand_template_entry.
    rewrite Hv. cbn [bind].
    rewrite Hm. cbn [bind]. split.
    + now intros ->.
    + intros elem H ->. discriminate H.
Qed.

(** C10: a direct entry is not appended on every input.  For the entry
    [{overlay: {name: "b<<x>>"}}] and caller's variables that bind [x] to
    [<<x>>], the resolution of the declared value never returns (the loop
    of C1), so neither the entry's turn of the loop nor the call of
    [expand_overlay_file] ends, and no element is appended. *)
Theorem direct_entry_cycle_not_appended (fuel : nat) :
  (forall (all_templates external_conditionals : dict) (overlay_name : Key),
     expand_entry container_str fuel all_templates external_conditionals
       cyclic_variables overlay_name (VDict cyclic_direct_entry) = NoFuel)
  /\ snd (expand_overlay_file container_str defaults_dir fuel
            cyclic_overlay_files cyclic_caller_state "overlays.yml" (Some 0))
     = NoFuel.
Proof.
  assert (R : resolve container_str fuel (VStr "b<<x>>") cyclic_variables
              = NoFuel).
  { unfold resolve. cbn [resolve_variable for_depth].
    now rewrite while_true_cycle. }
  assert (E : forall all_templates external_conditionals overlay_name,
            expand_entry container_str fuel all_templates external_conditionals
              cyclic_variables overlay_name (VDict cyclic_direct_entry)
            = NoFuel).
  { intros all_templates external_conditionals overlay_name.
    cbn [expand_entry cyclic_direct_entry Dict.get key_eqb key_num String.eqb
         Ascii.eqb Bool.eqb]. unfold expand_direct_entry.
    cbn [foldM]. now rewrite R. }
  split; [exact E|].
  unfold expand_overlay_file, expand_overlays, expand_entries.
  cbn -[expand_entry resolve]. now rewrite E.
Qed.

End ExpanderFacts.

(** ** The statements at work *)





Lemma evaluate_conditional_first_match_witness :
  evaluate_conditional sample_container_str 1 two_match_spec [(KStr "a", VInt 1)]
    = Ok (VStr "first")
  /\ evaluate_conditional sample_container_str 1 no_match_spec [(KStr "a", VInt 1)]
     = Ok (VStr "fallback").
Proof.
  split.
  - destruct (evaluate_conditional_first_match sample_container_str 1
                two_match_spec [(KStr "a", VInt 1)]) as [H _].
    rewrite (H [VDict [(KStr "absent", VStr "x"); (KStr "value", VStr "skipped")]]
               [VDict [(KStr "a.not", VInt 2); (KStr "value", VStr "second")]]
               [(KStr "a", VInt 1); (KStr "value", VStr "first")]).
    + reflexivity.
    + reflexivity.
    + constructor; [|constructor].
      exists [], [(KStr "value", VStr "skipped")], (KStr "absent"), (VStr "x").
      repeat split. constructor.
    + repeat constructor; simpl; intros E; try discriminate E; reflexivity.
  - destruct (evaluate_conditional_first_match sample_container_str 1
                no_match_spec [(KStr "a", VInt 1)]) as [_ H].
    rewrite (H [VDict [(KStr "a", VInt 2); (KStr "value", VStr "other")]]).
    + reflexivity.
    + reflexivity.
    + constructor; [|constructor].
      exists [], [(KStr "value", VStr "other")], (KStr "a"), (VInt 2).
      repeat split. constructor.
Defined.

(** C5, as stated, fails: with [key] bound to [caller] in the caller's
    variables and [hint] as the [key] argument, the binding that resolution
    sees is [hint], where the specification's seeding keeps [caller]. *)
Lemma process_template_key_argument_overrides :
  Dict.get (KStr "key") (seed_variables_spec [(KStr "key", VStr "caller")] (VStr "hint"))
    = Some (VStr "caller")
  /\ Dict.get (KStr "key")
       (seed_variables [(KStr "key", VStr "caller")] (VStr "hint"))
     = Some (VStr "hint")
  /\ seed_variables [(KStr "key", VStr "caller")] (VStr "hint")
     <> seed_variables_spec [(KStr "key", VStr "caller")] (VStr "hint")
  /\ process_template sample_container_str 1 (VStr "t") key_echo_template
       [(KStr "key", VStr "caller")] (VStr "hint")
     = Ok [(KStr "name", VStr "hint")].
Proof. repeat split. discriminate. Qed.

Lemma seed_variables_key_is_argument_witness :
  Dict.get (KStr "key")
    (seed_variables [(KStr "key", VStr "caller"); (KStr "a", VInt 1)] (VStr "hint"))
    = Some (VStr "hint")
  /\ Dict.get (KStr "a")
       (seed_variables [(KStr "key", VStr "caller"); (KStr "a", VInt 1)]
          (VStr "hint"))
     = Some (VInt 1)
  /\ Dict.get (KStr "key")
       (seed_variables [(KStr "key", VStr "caller"); (KStr "a", VInt 1)]
          (VStr "caller"))
     = Some (VStr "caller").
Proof.
  destruct (seed_variables_key_is_argument
              [(KStr "key", VStr "caller"); (KStr "a", VInt 1)] (VStr "hint"))
    as (H1 & H2 & _).
  destruct (seed_variables_key_is_argument
              [(KStr "key", VStr "caller"); (KStr "a", VInt 1)] (VStr "caller"))
    as (_ & _ & H3).
  split; [exact H1|]. split.
  - rewrite H2; reflexivity.
  - rewrite (H3 eq_refl); reflexivity.
Defined.




(** C8, as stated, fails: the entry calls [a] and [missing], the library
    holds [a] only, and [_template] names both, where the specification
    names [a] alone. *)
Lemma template_field_names_skipped_call :
  used_call_labels sample_container_str one_template_library
    [VStr "a"; VStr "missing"] = [VStr "a"]
  /\ expand_entry sample_container_str 1 one_template_library [] []
       (KStr "e") (VDict two_call_entry)
     = Ok (Some [(KStr "name", VStr "x"); (KStr "_original_name", VStr "e");
                 (KStr "_template", VStr "a, missing")])
  /\ Dict.get (KStr "_template")
       [(KStr "name", VStr "x"); (KStr "_original_name", VStr "e");
        (KStr "_template", VStr "a, missing")]
     <> Some (VStr (Str.join ", " ["a"])).
Proof. repeat split. discriminate. Qed.

Lemma template_field_joins_all_calls_witness :
  exists names : list string,
    map (call_label sample_container_str) [VStr "a"; VStr "missing"]
      = map VStr names
    /\ Dict.get (KStr "_template")
         [(KStr "name", VStr "x"); (KStr "_original_name", VStr "e");
          (KStr "_template", VStr "a, missing")]
       = Some (VStr (Str.join ", " names))
    /\ Dict.get (KStr "_original_name")
         [(KStr "name", VStr "x"); (KStr "_original_name", VStr "e");
          (KStr "_template", VStr "a, missing")]
       = Some (VStr "e").
Proof.
  apply (template_field_joins_all_calls sample_container_str 1
           one_template_library [] [] (KStr "e") two_call_entry
           (VList [VStr "a"; VStr "missing"])).
  reflexivity.
Defined.

Lemma expand_overlay_file_keeps_caller_variables_witness :
  heap (fst (expand_overlay_file sample_container_str "d" 2 overlay_files
               caller_state "overlays.yml" (Some 0))) !! 0
  = Some [(KStr "rating1", VStr "user / rt_tomato")].
Proof.
  apply (expand_overlay_file_keeps_caller_variables sample_container_str "d" 2
           overlay_files caller_state "overlays.yml" (Some 0) 0).
  reflexivity.
Defined.

Lemma direct_entry_always_appended_example :
  (exists elem,
     expand_entry sample_container_str 2 [] [] [(KStr "size", VInt 7)]
       (KStr "d") (VDict direct_entry) = Ok (Some elem)
     /\ Dict.get (KStr "_original_name") elem = Some (VStr "d")
     /\ Dict.get (KStr "_direct") elem = Some (VBool true))
  /\ expand_entry sample_container_str 0 [] [] [] (KStr "n") (VDict null_entry)
     = Ok (Some [(KStr "_original_name", VStr "n"); (KStr "_direct", VBool true)])
  /\ expand_entry sample_container_str 1 [] [] [] (KStr "e")
       (VDict two_call_entry) = Ok None.
Proof.
  split; [|split].
  - destruct (direct_entry_always_appended sample_container_str 2 [] []
                [(KStr "size", VInt 7)] (KStr "d") direct_entry) as [H _].
    destruct (H [(KStr "z", VNone); (KStr "name", VStr "n<<size>>")]
                eq_refl eq_refl) as [H1 _].
    apply H1. repeat constructor; simpl; eexists; reflexivity.
  - destruct (direct_entry_always_appended sample_container_str 0 [] []
                [] (KStr "n") null_entry) as [H _].
    destruct (H [(KStr "z", VNone); (KStr "y", VNone)] eq_refl eq_refl)
      as (_ & H2 & _).
    apply H2. repeat constructor.
  - destruct (direct_entry_always_appended sample_container_str 1 [] []
                [] (KStr "e") two_call_entry) as [_ H].
    destruct (H (VList [VStr "a"; VStr "missing"])
                [(KStr "key", VStr "e")] [] eq_refl eq_refl eq_refl) as [H1 _].
    now apply H1.
Defined.

(** * More properties of the program *)

(** ** Keys and dictionaries *)

Lemma dict_set_fresh (k : Key) (v : Value) (d : dict) :
  Dict.mem k d = false -> Dict.set k v d = (d ++ [(k, v)])%list.
Proof.
  unfold Dict.mem. induction d as [|[k0 v0] d IH]; cbn [Dict.get Dict.set app];
    [reflexivity|].
  destruct (key_eqb k k0); [discriminate|]. intros H. now rewrite IH.
Qed.

Lemma dict_get_app (k : Key) (d e : dict) :
  Dict.get k (d ++ e)%list
  = match Dict.get k d with Some v => Some v | None => Dict.get k e end.
Proof.
  induction d as [|[k0 v0] d IH]; cbn [Dict.get app]; [reflexivity|].
  now destruct (key_eqb k k0).
Qed.

Lemma dict_set_keys_fresh (k : Key) (v : Value) (d : dict) :
  Dict.mem k d = false -> map fst (Dict.set k v d) = (map fst d ++ [k])%list.
Proof. intros H. rewrite dict_set_fresh by exact H. now rewrite map_app. Qed.

Lemma dict_mem_get (k : Key) (d : dict) :
  Dict.mem k d = true <-> exists v, Dict.get k d = Some v.
Proof.
  unfold Dict.mem. destruct (Dict.get k d) as [v|]; split;
    try discriminate; eauto. now intros [v H].
Qed.

(** ** More on the resolver *)

Section ResolverMore.

Variable container_str : Value -> string.

Lemma resolve_string_without_open (fuel max_depth : nat) (variables : dict)
    (s : string) :
  Str.contains "<<" s = false ->
  resolve_variable container_str (S fuel) (VStr s) variables max_depth
  = Ok (VStr s).
Proof.
  intros H. cbn [resolve_variable]. apply for_depth_no_match.
  now apply finditer_without_open.
Qed.

(** X1: a value none of whose strings holds [<<] resolves to itself,
    whatever the variables: resolving a resolved value changes nothing. *)
Theorem resolve_variable_resolved_is_fixed (fuel : nat) (variables : dict)
    (v : Value) :
  open_free v = true ->
  forall max_depth : nat,
    resolve_variable container_str (S fuel) v variables max_depth = Ok v.
Proof.
  induction v as [| b | z | s | items IH | elems IH] using Value_nested_ind;
    intros Hfree max_depth; try reflexivity.
  - apply resolve_string_without_open. simpl in Hfree.
    now apply negb_true_iff in Hfree.
  - cbn [resolve_variable].
    match goal with
    | |- bind ?m _ = _ => assert (Hm : m = Ok items); [|now rewrite Hm]
    end.
    cbn [open_free] in Hfree.
    induction IH as [|[k x] items Hx _ IHitems]; [reflexivity|].
    apply andb_prop in Hfree as [Hx' Hrest]. simpl in Hx.
    rewrite (Hx Hx' 10). cbn [bind]. now rewrite (IHitems Hrest).
  - cbn [resolve_variable].
    match goal with
    | |- bind ?m _ = _ => assert (Hm : m = Ok elems); [|now rewrite Hm]
    end.
    cbn [open_free] in Hfree.
    induction IH as [|x elems Hx _ IHelems]; [reflexivity|].
    apply andb_prop in Hfree as [Hx' Hrest].
    rewrite (Hx Hx' 10). cbn [bind]. now rewrite (IHelems Hrest).
Qed.

Lemma for_matches_unbound (variables : dict) (matches : list string) (s : string) :
  (forall x, x ∈ matches ->
     Dict.get (KStr x) variables = None
     \/ Dict.get (KStr x) variables = Some VNone) ->
  for_matches container_str variables matches s false = Next s false.
Proof.
  induction matches as [|x matches IH]; intros H; [reflexivity|].
  cbn [for_matches].
  destruct (H x) as [-> | ->]; [now apply elem_of_cons; left | |];
    cbn [is_none]; apply IH; intros y Hy; apply H; now apply elem_of_cons; right.
Qed.

(** X2: a string all of whose placeholders name variables that are absent
    or [None] is returned as it is. *)
Theorem resolve_variable_unbound_untouched (fuel max_depth : nat)
    (variables : dict) (s : string) :
  (forall x, x ∈ Str.finditer s ->
     Dict.get (KStr x) variables = None
     \/ Dict.get (KStr x) variables = Some VNone) ->
  resolve_variable container_str (S fuel) (VStr s) variables max_depth
  = Ok (VStr s).
Proof.
  intros H. cbn [resolve_variable]. destruct max_depth as [|n]; [reflexivity|].
  cbn [for_depth while_true]. unfold while_body.
  destruct (Str.finditer s) as [|x matches] eqn:E.
  - now rewrite String.eqb_refl.
  - rewrite for_matches_unbound by exact H. now rewrite String.eqb_refl.
Qed.

Lemma for_matches_return (variables : dict) (matches : list string)
    (s : string) (made : bool) (v : Value) :
  for_matches container_str variables matches s made = Return v ->
  v <> VNone /\ exists x, Dict.get (KStr x) variables = Some v.
Proof.
  revert s made. induction matches as [|x matches IH]; intros s made;
    cbn [for_matches]; [discriminate|].
  destruct (Dict.get (KStr x) variables) as [w|] eqn:E; [|apply IH].
  destruct (is_none w) eqn:Hn; [apply IH|].
  destruct (String.eqb s (placeholder x)); [|apply IH].
  intros [= <-]. split; [intros ->; discriminate | now exists x].
Qed.

Lemma while_true_return (fuel : nat) (variables : dict) (s : string) (v : Value) :
  while_true container_str fuel variables s = Ok (inl v) ->
  v <> VNone /\ exists x, Dict.get (KStr x) variables = Some v.
Proof.
  revert s. induction fuel as [|fuel IH]; intros s; cbn [while_true];
    [discriminate|].
  unfold while_body. destruct (Str.finditer s) as [|x matches]; [discriminate|].
  destruct (for_matches container_str variables (x :: matches) s false)
    as [w|r []] eqn:E; try discriminate.
  - intros [= <-]. now apply for_matches_return in E.
  - apply IH.
Qed.

Lemma for_depth_result (fuel n : nat) (variables : dict) (s : string) (r : Value) :
  for_depth container_str fuel variables n s = Ok r ->
  r <> VNone
  /\ ((exists t, r = VStr t) \/ exists x, Dict.get (KStr x) variables = Some r).
Proof.
  revert s. induction n as [|n IH]; intros s; cbn [for_depth].
  - intros [= <-]. split; [discriminate | left; now eexists].
  - destruct (while_true container_str fuel variables s) as [[v|t]| |] eqn:E;
      try discriminate.
    + intros [= <-]. apply while_true_return in E as [Hn Hx]. now split; [|right].
    + destruct (String.eqb t s); [|apply IH].
      intros [= <-]. split; [discriminate | left; now eexists].
Qed.

(** X5: a string never resolves to [None]: whenever the resolver returns
    on a string, the result is a string or the value that a variable is
    bound to, and it is not [None]. *)
Theorem resolve_variable_outcome (fuel : nat) (variables : dict) (s : string)
    (max_depth : nat) (r : Value) :
  resolve_variable container_str fuel (VStr s) variables max_depth = Ok r ->
  r <> VNone
  /\ ((exists t, r = VStr t)
      \/ exists x, Dict.get (KStr x) variables = Some r).
Proof. cbn [resolve_variable]. apply for_depth_result. Qed.

(** X6: the resolver keeps the shape of a value: a dictionary keeps its
    keys (they are not resolved) and their order, a list keeps its length,
    and [None], Booleans and numbers are returned as they are. *)
Theorem resolve_variable_keeps_shape (fuel : nat) (variables : dict)
    (max_depth : nat) :
  (forall (items : list (Key * Value)) (r : Value),
     resolve_variable container_str fuel (VDict items) variables max_depth = Ok r ->
     exists items', r = VDict items' /\ map fst items' = map fst items)
  /\ (forall (elems : list Value) (r : Value),
        resolve_variable container_str fuel (VList elems) variables max_depth
          = Ok r ->
        exists elems', r = VList elems' /\ length elems' = length elems)
  /\ resolve_variable container_str fuel VNone variables max_depth = Ok VNone
  /\ (forall b, resolve_variable container_str fuel (VBool b) variables max_depth
                = Ok (VBool b))
  /\ (forall z, resolve_variable container_str fuel (VInt z) variables max_depth
                = Ok (VInt z)).
Proof.
  repeat split; try reflexivity.
  - intros items r. cbn [resolve_variable]. intros H.
    apply bind_ok in H as (items' & H & [= <-]). exists items'.
    split; [reflexivity|]. revert items' H.
    induction items as [|[k v] items IH]; intros items'.
    + now intros [= <-].
    + intros H. apply bind_ok in H as (v' & _ & H).
      apply bind_ok in H as (rest & Hrest & [= <-]).
      cbn [map fst]. now rewrite (IH rest Hrest).
  - intros elems r. cbn [resolve_variable]. intros H.
    apply bind_ok in H as (elems' & H & [= <-]). exists elems'.
    split; [reflexivity|]. revert elems' H.
    induction elems as [|v elems IH]; intros elems'.
    + now intros [= <-].
    + intros H. apply bind_ok in H as (v' & _ & H).
      apply bind_ok in H as (rest & Hrest & [= <-]).
      cbn [length]. now rewrite (IH rest Hrest).
Qed.

End ResolverMore.

(** ** When the resolver returns *)

Lemma count_open_app (s t : string) :
  count_open (s +:+ t) = count_open s + count_open t.
Proof. induction s as [|c s IH]; simpl; [reflexivity | rewrite IH; lia]. Qed.

Lemma count_open_no_open (s : string) :
  Str.no_open s = true -> count_open s = 0.
Proof.
  induction s as [|c s IH]; simpl; [reflexivity|]. intros H.
  apply andb_prop in H as [Hc Hs]. apply negb_true_iff in Hc.
  rewrite Hc. now rewrite IH.
Qed.

Lemma prefix_head (a c : ascii) (o t : string) :
  String.prefix (String a o) (String c t) = true ->
  a = c /\ String.prefix o t = true.
Proof. simpl. destruct (ascii_dec a c); [now split | discriminate]. Qed.

Lemma replace_count_le (old new : string) :
  Str.no_open new = true ->
  forall (s : string) (k : nat),
    count_open (Str.replace_from old new k s) <= count_open s.
Proof.
  intros Hnew. induction s as [|c s IH]; intros k; cbn [Str.replace_from];
    [lia|].
  destruct k as [|k].
  - destruct (String.prefix old (String c s)).
    + rewrite count_open_app, (count_open_no_open new Hnew). cbn [count_open].
      specialize (IH (String.length old - 1)). lia.
    + cbn [count_open]. specialize (IH 0). lia.
  - cbn [count_open]. specialize (IH k). lia.
Qed.

Lemma replace_count_lt (o new s : string) :
  Str.no_open new = true ->
  Str.contains (String "<" o) s = true ->
  count_open (Str.replace (String "<" o) new s) < count_open s.
Proof.
  intros Hnew. unfold Str.replace.
  induction s as [|c s IH]; cbn [Str.contains Str.replace_from]; [discriminate|].
  destruct (String.prefix (String "<" o) (String c s)) eqn:P.
  - intros _. apply prefix_head in P as [<- _].
    rewrite count_open_app, (count_open_no_open new Hnew). cbn [count_open].
    pose proof (replace_count_le (String "<" o) new Hnew s
                  (String.length (String "<" o) - 1)).
    simpl (Ascii.eqb _ _). cbv iota. lia.
  - cbn [orb]. intros H. specialize (IH H). cbn [count_open]. lia.
Qed.

Lemma span_name_split (t n r : string) :
  Str.span_name t = (n, r) -> t = n +:+ r.
Proof.
  revert n r. induction t as [|c t IH]; intros n r; cbn [Str.span_name].
  - now intros [= <- <-].
  - destruct (Str.is_angle c); [now intros [= <- <-]|].
    destruct (Str.span_name t) as [n' r'] eqn:E. intros [= <- <-].
    simpl. now rewrite (IH n' r' eq_refl).
Qed.

Lemma match_here_occurrence (s n : string) :
  Str.match_here s = Some n -> String.prefix (placeholder n) s = true.
Proof.
  intros H. pose proof (match_here_prefix s n H) as P.
  destruct s as [|c s]; [discriminate|].
  apply prefix_head in P as [<- P].
  destruct s as [|c s]; [discriminate|].
  apply prefix_head in P as [<- _].
  unfold Str.match_here in H.
  destruct (Str.span_name s) as [a b] eqn:Sp.
  destruct a as [|c0 a]; [discriminate|].
  destruct b as [|c1 b]; [discriminate|].
  destruct (Ascii.eqb c1 ">") eqn:E1.
  - apply Ascii.eqb_eq in E1. subst c1.
    destruct b as [|c2 b]; [discriminate|].
    destruct (Ascii.eqb c2 ">") eqn:E2.
    + apply Ascii.eqb_eq in E2. subst c2. injection H as <-.
      apply span_name_split in Sp. subst s.
      rewrite placeholder_unfold.
      change (String "<" (String "<" (String c0 a +:+ ">>")))
        with ("<<" +:+ (String c0 a +:+ ">>")).
      change (String "<" (String "<" (String c0 a +:+ String ">" (String ">" b))))
        with ("<<" +:+ (String c0 a +:+ (">>" +:+ b))).
      rewrite <- (str_app_assoc (String c0 a) ">>" b).
      rewrite <- (str_app_assoc "<<" (String c0 a +:+ ">>") b).
      apply prefix_app.
    + destruct c2 as [[] [] [] [] [] [] [] []]; try discriminate E2;
        discriminate H.
  - destruct c1 as [[] [] [] [] [] [] [] []]; try discriminate E1;
      discriminate H.
Qed.

Lemma contains_tail (p : string) (c : ascii) (s : string) :
  Str.contains p s = true -> Str.contains p (String c s) = true.
Proof. intros H. cbn [Str.contains]. rewrite H. apply orb_true_r. Qed.

(** Every match of a scan is a placeholder that occurs in the string. *)
Lemma finditer_occurrence (s : string) :
  forall (k : nat) (x : string),
    x ∈ Str.finditer_from k s -> Str.contains (placeholder x) s = true.
Proof.
  induction s as [|c s IH]; intros k x H; cbn [Str.finditer_from] in H.
  - now apply elem_of_nil in H.
  - destruct k as [|k]; [|apply contains_tail; now apply (IH k)].
    destruct (Str.match_here (String c s)) as [n|] eqn:M.
    + apply elem_of_cons in H as [-> | H].
      * cbn [Str.contains]. now rewrite (match_here_occurrence _ _ M).
      * apply contains_tail. now apply (IH _ _ H).
    + apply contains_tail. now apply (IH 0).
Qed.

Section ResolverReturns.

Variable container_str : Value -> string.
Variable variables : dict.

(** The text of every variable that can be substituted holds no [<]. *)
Hypothesis closed_texts :
  forall (x : string) (v : Value),
    Dict.get (KStr x) variables = Some v ->
    v <> VNone ->
    Str.no_open (py_str container_str v) = true.

Lemma for_matches_measure (matches : list string) :
  forall (cur : string) (made : bool) (r : string) (made' : bool),
    for_matches container_str variables matches cur made = Next r made' ->
    (made = false ->
     forall x, x ∈ matches -> Str.contains (placeholder x) cur = true) ->
    count_open r <= count_open cur
    /\ (made = false -> made' = true -> count_open r < count_open cur).
Proof.
  induction matches as [|x matches IH]; intros cur made r made';
    cbn [for_matches].
  - intros [= <- <-] _. split; [lia | congruence].
  - intros H Hocc.
    assert (Hrest : made = false ->
              forall y, y ∈ matches -> Str.contains (placeholder y) cur = true).
    { intros Hm y Hy. apply (Hocc Hm). now apply elem_of_cons; right. }
    destruct (Dict.get (KStr x) variables) as [v|] eqn:Hget;
      [|now apply (IH cur made r made')].
    destruct (is_none v) eqn:Hn; [now apply (IH cur made r made')|].
    destruct (String.eqb cur (placeholder x)); [discriminate|].
    assert (Hv : v <> VNone) by (intros ->; discriminate).
    pose proof (closed_texts x v Hget Hv) as Hnew.
    destruct (IH _ true r made' H) as [Hle _]; [discriminate|].
    pose proof (replace_count_le (placeholder x) _ Hnew cur 0) as Hle'.
    fold (Str.replace (placeholder x) (py_str container_str v) cur) in Hle'.
    split; [lia|]. intros Hm _.
    pose proof (replace_count_lt (String "<" (x +:+ ">>"))
                  (py_str container_str v) cur Hnew) as Hlt.
    rewrite <- placeholder_unfold in Hlt.
    specialize (Hlt (Hocc Hm x ltac:(now apply elem_of_cons; left))). lia.
Qed.

Lemma while_true_returns (fuel : nat) :
  forall s : string,
    count_open s < fuel ->
    exists out,
      while_true container_str fuel variables s = Ok out
      /\ forall r, out = inr r -> count_open r <= count_open s.
Proof.
  induction fuel as [|fuel IH]; intros s Hs; [lia|].
  cbn [while_true]. unfold while_body.
  destruct (Str.finditer s) as [|x matches] eqn:E.
  - eexists. split; [reflexivity|]. now intros r [= <-].
  - destruct (for_matches container_str variables (x :: matches) s false)
      as [v|r b] eqn:F.
    + eexists. split; [reflexivity|]. discriminate.
    + destruct (for_matches_measure _ _ _ _ _ F) as [Hle Hlt].
      { intros _ y Hy. apply (finditer_occurrence s 0).
        unfold Str.finditer in E. now rewrite E. }
      destruct b.
      * specialize (Hlt eq_refl eq_refl).
        destruct (IH r) as (out & Hout & Hr); [lia|].
        exists out. split; [exact Hout|]. intros r' Hr'.
        specialize (Hr r' Hr'). lia.
      * eexists. split; [reflexivity|]. now intros r' [= <-].
Qed.

Lemma for_depth_returns (fuel n : nat) :
  forall s : string,
    count_open s < fuel ->
    exists r, for_depth container_str fuel variables n s = Ok r.
Proof.
  induction n as [|n IH]; intros s Hs; cbn [for_depth]; [now eexists|].
  destruct (while_true_returns fuel s Hs) as (out & -> & Hr).
  destruct out as [v|r]; [now eexists|].
  destruct (String.eqb r s); [now eexists|].
  apply IH. specialize (Hr r eq_refl). lia.
Qed.

(** X4: when the text of no variable holds [<], the resolver returns on
    every value: as many turns of the inner loop as the longest string of
    the value has [<], and one more, are enough. *)
Theorem resolve_variable_returns (fuel : nat) (v : Value) :
  max_open v < fuel ->
  forall max_depth : nat,
    exists r, resolve_variable container_str fuel v variables max_depth = Ok r.
Proof.
  induction v as [| b | z | s | items IH | elems IH] using Value_nested_ind;
    intros Hfuel max_depth; try (now eexists).
  - cbn [resolve_variable]. now apply for_depth_returns.
  - cbn [resolve_variable].
    match goal with
    | |- exists r, bind ?m _ = _ =>
        assert (Hm : exists items', m = Ok items');
        [|destruct Hm as [items' ->]; now eexists]
    end.
    cbn [max_open] in Hfuel.
    induction IH as [|[k x] items Hx _ IHitems]; [now eexists|].
    simpl in Hx.
    destruct (Hx ltac:(lia) 10) as [x' ->]. cbn [bind].
    destruct (IHitems ltac:(lia)) as [rest ->]. now eexists.
  - cbn [resolve_variable].
    match goal with
    | |- exists r, bind ?m _ = _ =>
        assert (Hm : exists elems', m = Ok elems');
        [|destruct Hm as [elems' ->]; now eexists]
    end.
    cbn [max_open] in Hfuel.
    induction IH as [|x elems Hx _ IHelems]; [now eexists|].
    destruct (Hx ltac:(lia) 10) as [x' ->]. cbn [bind].
    destruct (IHelems ltac:(lia)) as [rest ->]. now eexists.
Qed.

End ResolverReturns.

(** ** Nested placeholders *)

Lemma no_angle_app (s t : string) :
  Str.no_angle (s +:+ t) = (Str.no_angle s && Str.no_angle t)%bool.
Proof.
  induction s as [|c s IH]; simpl; [reflexivity|].
  rewrite IH. now rewrite andb_assoc.
Qed.

Lemma span_name_angle (x r : string) :
  Str.no_angle x = true ->
  Str.span_name (x +:+ String "<" r) = (x, String "<" r).
Proof.
  induction x as [|c x IH]; simpl; intros H; [reflexivity|].
  apply andb_prop in H as [Hc Hx]. apply negb_true_iff in Hc.
  now rewrite Hc, IH.
Qed.

Lemma match_here_second (c : ascii) (t : string) :
  Ascii.eqb c "<" = false -> Str.match_here (String "<" (String c t)) = None.
Proof.
  destruct c as [[] [] [] [] [] [] [] []]; intros H;
    try discriminate H; reflexivity.
Qed.

(** No match starts at the opening [<<] of an outer placeholder whose
    name begins with an inner one. *)
Lemma match_here_outer (pre r : string) :
  Str.no_angle pre = true ->
  Str.match_here (String "<" (String "<" (pre +:+ String "<" (String "<" r))))
    = None
  /\ Str.match_here (String "<" (pre +:+ String "<" (String "<" r))) = None.
Proof.
  intros Hpre. split.
  - unfold Str.match_here. rewrite span_name_angle by exact Hpre.
    now destruct pre.
  - destruct pre as [|c pre]; [reflexivity|].
    simpl in Hpre. apply andb_prop in Hpre as [Hc _].
    apply negb_true_iff in Hc. unfold Str.is_angle in Hc.
    apply orb_false_iff in Hc as [Hc _].
    now apply match_here_second.
Qed.

Lemma prefix_name_mismatch (x : string) :
  forall (pre z r : string),
    Str.no_angle x = true ->
    Str.no_angle pre = true ->
    String.prefix (x +:+ String ">" z) (pre +:+ String "<" r) = false.
Proof.
  induction x as [|a x IH]; intros pre z r Hx Hpre.
  - destruct pre as [|c pre]; [reflexivity|].
    simpl in Hpre. apply andb_prop in Hpre as [Hc _].
    apply negb_true_iff in Hc. unfold Str.is_angle in Hc.
    apply orb_false_iff in Hc as [_ Hc].
    now apply prefix_head_mismatch.
  - simpl in Hx. apply andb_prop in Hx as [Ha Hx].
    apply negb_true_iff in Ha. unfold Str.is_angle in Ha.
    apply orb_false_iff in Ha as [Ha _].
    destruct pre as [|c pre].
    + apply prefix_head_mismatch. now rewrite Ascii.eqb_sym.
    + simpl in Hpre. apply andb_prop in Hpre as [_ Hpre].
      change (String.prefix (String a (x +:+ String ">" z))
                (String c (pre +:+ String "<" r)) = false).
      simpl. destruct (ascii_dec a c); [now apply IH | reflexivity].
Qed.

Lemma finditer_nested (pre x post : string) :
  Str.is_name x = true ->
  Str.no_angle pre = true ->
  Str.no_angle post = true ->
  Str.finditer (placeholder (pre +:+ placeholder x +:+ post)) = [x].
Proof.
  intros Hx Hpre Hpost. rewrite (placeholder_unfold (pre +:+ _)).
  rewrite !str_app_assoc. rewrite placeholder_app.
  destruct (match_here_outer pre
              (x +:+ String ">" (String ">" (post +:+ ">>"))) Hpre)
    as [M0 M1].
  unfold Str.finditer. cbn [Str.finditer_from]. rewrite M0, M1.
  rewrite <- placeholder_app.
  apply finditer_placeholder_in_context; [exact Hx | |].
  - now apply no_angle_no_open.
  - rewrite no_open_app. now rewrite (no_angle_no_open post Hpost).
Qed.

Lemma replace_nested (pre x new post : string) :
  Str.no_angle x = true ->
  Str.no_angle pre = true ->
  Str.no_angle post = true ->
  Str.replace (placeholder x) new (placeholder (pre +:+ placeholder x +:+ post))
  = placeholder (pre +:+ new +:+ post).
Proof.
  intros Hx Hpre Hpost. rewrite (placeholder_unfold (pre +:+ _)).
  rewrite !str_app_assoc. unfold Str.replace.
  assert (P0 : String.prefix (placeholder x)
                 (String "<" (String "<"
                    (pre +:+ placeholder x +:+ post +:+ ">>"))) = false).
  { rewrite placeholder_app, placeholder_unfold.
    rewrite !prefix_cons_same.
    now apply prefix_name_mismatch. }
  assert (P1 : String.prefix (placeholder x)
                 (String "<" (pre +:+ placeholder x +:+ post +:+ ">>")) = false).
  { rewrite placeholder_app, placeholder_unfold.
    rewrite prefix_cons_same.
    destruct pre as [|c pre].
    - change ("" +:+ String "<" (String "<"
                (x +:+ String ">" (String ">" (post +:+ ">>")))))
        with (String "<" (String "<"
                (x +:+ String ">" (String ">" (post +:+ ">>"))))).
      rewrite prefix_cons_same.
      now apply (prefix_name_mismatch x "").
    - simpl in Hpre. apply andb_prop in Hpre as [Hc _].
      apply negb_true_iff in Hc. unfold Str.is_angle in Hc.
      apply orb_false_iff in Hc as [Hc _].
      now apply prefix_head_mismatch. }
  cbn [Str.replace_from]. rewrite P0. cbn [Str.replace_from]. rewrite P1.
  pose proof (replace_placeholder_in_context pre x new (post +:+ ">>")
                (no_angle_no_open pre Hpre)) as R.
  unfold Str.replace in R. rewrite R.
  - rewrite placeholder_unfold. now rewrite !str_app_assoc.
  - rewrite no_open_app. now rewrite (no_angle_no_open post Hpost).
Qed.

Lemma placeholder_length (x : string) :
  String.length (placeholder x) = String.length x + 4.
Proof. rewrite placeholder_unfold. simpl. rewrite str_length_app. simpl. lia. Qed.

Section NestedFacts.

Variable container_str : Value -> string.

(** X3: a placeholder inside the name of a placeholder is resolved first.
    Let [x] be a name (not empty, without angle brackets) bound to a value
    other than [None] whose text is [t], let [pre] and [post] hold no angle
    bracket, and let the text made of [pre], [t] and [post] be a name bound
    to a value [v] other than [None]: the string [<<pre<<x>>post>>] resolves
    to [v] itself. *)
Theorem resolve_variable_nested (fuel max_depth : nat) (variables : dict)
    (pre x post : string) (inner v : Value) :
  Str.is_name x = true ->
  Str.no_angle pre = true ->
  Str.no_angle post = true ->
  Dict.get (KStr x) variables = Some inner ->
  inner <> VNone ->
  Str.is_name (pre +:+ py_str container_str inner +:+ post) = true ->
  Dict.get (KStr (pre +:+ py_str container_str inner +:+ post)) variables
    = Some v ->
  v <> VNone ->
  resolve_variable container_str (S (S fuel))
    (VStr (placeholder (pre +:+ placeholder x +:+ post))) variables
    (S max_depth)
  = Ok v.
Proof.
  intros Hx Hpre Hpost Hget Hinner Hname Hget' Hv.
  assert (Hn1 : is_none inner = false) by (destruct inner; simpl; congruence).
  assert (Hn2 : is_none v = false) by (destruct v; simpl; congruence).
  assert (Hxa : Str.no_angle x = true).
  { unfold Str.is_name in Hx. now apply andb_prop in Hx as [_ Hx]. }
  cbn [resolve_variable for_depth].
  assert (W : while_true container_str (S (S fuel)) variables
                (placeholder (pre +:+ placeholder x +:+ post)) = Ok (inl v)).
  { cbn [while_true]. unfold while_body at 1.
    rewrite finditer_nested by assumption.
    cbn [for_matches]. rewrite Hget, Hn1.
    assert (E : String.eqb (placeholder (pre +:+ placeholder x +:+ post))
                  (placeholder x) = false).
    { apply String.eqb_neq. intros E. apply (f_equal String.length) in E.
      rewrite !placeholder_length, !str_length_app, placeholder_length in E.
      lia. }
    rewrite E. rewrite replace_nested by assumption.
    unfold while_body.
    pose proof (finditer_placeholder_in_context ""
                  (pre +:+ py_str container_str inner +:+ post) ""
                  Hname eq_refl eq_refl) as F.
    change ("" +:+ placeholder (pre +:+ py_str container_str inner +:+ post)
            +:+ "")
      with (placeholder (pre +:+ py_str container_str inner +:+ post) +:+ "")
      in F.
    rewrite str_app_nil_r in F. rewrite F.
    cbn [for_matches]. rewrite Hget', Hn2. now rewrite String.eqb_refl. }
  now rewrite W.
Qed.

End NestedFacts.

(** ** The checks of a clause *)

Lemma contains_open_app (s : string) (c : ascii) (t : string) :
  Str.contains "<<" s = false ->
  Ascii.eqb c "<" = false ->
  Str.contains "<<" (String c t) = false ->
  Str.contains "<<" (s +:+ String c t) = false.
Proof.
  intros Hs Hc Ht. induction s as [|a s IH]; [exact Ht|].
  cbn [Str.contains] in Hs. apply orb_false_iff in Hs as [Hp Hs].
  change (String a s +:+ String c t) with (String a (s +:+ String c t)).
  cbn [Str.contains]. rewrite (IH Hs), orb_false_r.
  destruct (Ascii.eqb a "<") eqn:Ha.
  - apply Ascii.eqb_eq in Ha. subst a. rewrite prefix_cons_same in *.
    destruct s as [|b s]; [now apply prefix_head_mismatch|].
    change (String b s +:+ String c t) with (String b (s +:+ String c t)).
    destruct (Ascii.eqb b "<") eqn:Hb.
    + apply Ascii.eqb_eq in Hb. subst b.
      rewrite prefix_cons_same in Hp. now destruct s.
    + now apply prefix_head_mismatch.
  - now apply prefix_head_mismatch.
Qed.

Lemma endswith_app (suffix s : string) :
  Str.endswith suffix (s +:+ suffix) = true.
Proof.
  induction s as [|c s IH].
  - destruct suffix; cbn [Str.endswith String.append];
      now rewrite String.eqb_refl.
  - change (String c s +:+ suffix) with (String c (s +:+ suffix)).
    cbn [Str.endswith]. rewrite IH. apply orb_true_r.
Qed.

Lemma endswith_inv (suffix s : string) :
  Str.endswith suffix s = true -> exists p, s = p +:+ suffix.
Proof.
  induction s as [|c s IH]; cbn [Str.endswith].
  - rewrite orb_false_r. intros H. apply String.eqb_eq in H. now exists "".
  - intros H. apply orb_true_iff in H as [H|H].
    + apply String.eqb_eq in H. now exists "".
    + destruct (IH H) as [p ->]. now exists (String c p).
Qed.

Lemma substring_prefix (s t : string) :
  String.substring 0 (String.length s) (s +:+ t) = s.
Proof.
  induction s as [|c s IH]; simpl; [now destruct t | now rewrite IH].
Qed.

Lemma drop_last_app (suffix s : string) :
  Str.drop_last (String.length suffix) (s +:+ suffix) = s.
Proof.
  unfold Str.drop_last. rewrite str_length_app.
  replace (String.length s + String.length suffix - String.length suffix)
    with (String.length s) by lia.
  apply substring_prefix.
Qed.

Lemma last_char_app (s t : string) :
  t <> "" -> last_char (s +:+ t) = last_char t.
Proof.
  intros Ht. induction s as [|c s IH]; [reflexivity|].
  change (String c s +:+ t) with (String c (s +:+ t)).
  cbn [last_char]. destruct (s +:+ t) eqn:E; [|exact IH].
  destruct s; [simpl in E; congruence | discriminate E].
Qed.

Lemma not_key_is_no_exists_key (name : string) :
  Str.endswith ".exists" (name +:+ ".not") = false.
Proof.
  destruct (Str.endswith ".exists" (name +:+ ".not")) eqn:E; [|reflexivity].
  apply endswith_inv in E as [p E]. apply (f_equal last_char) in E.
  rewrite !last_char_app in E by discriminate. discriminate E.
Qed.

Section CheckFacts.

Variable container_str : Value -> string.

Lemma check_plain_key (fuel : nat) (variables : dict) (key : string)
    (check_value : Value) :
  Str.contains "<<" key = false ->
  check container_str (S fuel) variables (KStr key) check_value
  = if Str.endswith ".exists" key
    then check_exists container_str (S fuel) variables key check_value
    else if Str.endswith ".not" key
         then Ok (check_not container_str variables key check_value)
         else Ok (check_equal container_str variables key check_value).
Proof.
  intros H. unfold check. cbn [key_value]. unfold resolve.
  now rewrite resolve_string_without_open.
Qed.

Lemma check_exists_key (fuel : nat) (variables : dict) (name : string)
    (check_value : Value) :
  Str.contains "<<" name = false ->
  check container_str (S fuel) variables (KStr (name +:+ ".exists")) check_value
  = Ok (Bool.eqb
          match Dict.get (KStr name) variables with
          | Some var_value =>
              (negb (is_none var_value) &&
               negb match var_value with
                    | VStr s => Str.contains "<<" s && Str.contains ">>" s
                    | _ => false
                    end)%bool
          | None => false
          end
          match check_value with
          | VBool b => b
          | _ => String.eqb (Str.lower (py_str container_str check_value)) "true"
          end).
Proof.
  intros H. rewrite check_plain_key by (now apply contains_open_app).
  rewrite endswith_app. unfold check_exists.
  change 7 with (String.length ".exists"). rewrite drop_last_app.
  unfold resolve. now rewrite resolve_string_without_open.
Qed.

(** X7: a check [name.exists] compares its Boolean with whether the
    variable is there: absent, [None], or a string that holds both [<<] and
    [>>] count as not there, anything else as there.  An expected value
    that is the text [true] in any case reads as [True]. *)
Theorem exists_check_semantics (fuel : nat) (variables : dict) (name : string) :
  Str.contains "<<" name = false ->
  (forall b : bool,
     Dict.get (KStr name) variables = None
     \/ Dict.get (KStr name) variables = Some VNone ->
     check container_str (S fuel) variables (KStr (name +:+ ".exists")) (VBool b)
     = Ok (negb b))
  /\ (forall (b : bool) (t : string),
        Dict.get (KStr name) variables = Some (VStr t) ->
        Str.contains "<<" t = true ->
        Str.contains ">>" t = true ->
        check container_str (S fuel) variables (KStr (name +:+ ".exists"))
          (VBool b)
        = Ok (negb b))
  /\ (forall (b : bool) (v : Value),
        Dict.get (KStr name) variables = Some v ->
        v <> VNone ->
        (forall t, v = VStr t ->
           Str.contains "<<" t = false \/ Str.contains ">>" t = false) ->
        check container_str (S fuel) variables (KStr (name +:+ ".exists"))
          (VBool b)
        = Ok b)
  /\ (forall t : string,
        Str.lower t = "true" ->
        check container_str (S fuel) variables (KStr (name +:+ ".exists"))
          (VStr t)
        = check container_str (S fuel) variables (KStr (name +:+ ".exists"))
            (VBool true)).
Proof.
  intros Hname. repeat split.
  - intros b [H|H]; rewrite check_exists_key, H by exact Hname;
      now destruct b.
  - intros b t H Ho Hc. rewrite check_exists_key, H by exact Hname.
    cbn [is_none negb andb]. rewrite Ho, Hc. now destruct b.
  - intros b v H Hv Hs. rewrite check_exists_key, H by exact Hname.
    destruct v as [| | |t| |]; try congruence; try (now destruct b).
    cbn [is_none negb andb].
    destruct (Hs t eq_refl) as [-> | ->]; rewrite ?andb_false_r;
      now destruct b.
  - intros t Ht. rewrite !check_exists_key by exact Hname.
    cbn [py_str]. now rewrite Ht.
Qed.

(** X8: checks on a variable that the environment lacks, for a [name]
    without [<<] (a check key that holds a placeholder is resolved before
    it is looked up): [name.not] passes whatever is expected, [name.exists]
    passes when [False] is expected, and the plain check [name] fails. *)
Theorem absent_variable_checks (fuel : nat) (variables : dict) (name : string)
    (check_value : Value) :
  Str.contains "<<" name = false ->
  Dict.get (KStr name) variables = None ->
  check container_str (S fuel) variables (KStr (name +:+ ".not")) check_value
    = Ok true
  /\ check container_str (S fuel) variables (KStr (name +:+ ".exists"))
       (VBool false)
     = Ok true
  /\ (Str.endswith ".exists" name = false ->
      Str.endswith ".not" name = false ->
      check container_str (S fuel) variables (KStr name) check_value = Ok false).
Proof.
  intros Hname Hget. repeat split.
  - rewrite check_plain_key by (now apply contains_open_app).
    rewrite not_key_is_no_exists_key, endswith_app. unfold check_not.
    change 4 with (String.length ".not"). now rewrite drop_last_app, Hget.
  - now rewrite check_exists_key, Hget by exact Hname.
  - intros He Hn. rewrite check_plain_key, He, Hn by exact Hname.
    unfold check_equal. now rewrite Hget.
Qed.

(** X9: checks on a variable that the environment has, for a [name]
    without [<<] (a check key that holds a placeholder is resolved before
    it is looked up), compare texts: the plain check passes when [str] of
    the variable and [str] of the expected value are the same string, or,
    for an expected list, when the variable is equal to one of its items;
    [name.not] passes in the other cases. *)
Theorem present_variable_checks (fuel : nat) (variables : dict) (name : string)
    (v : Value) :
  Str.contains "<<" name = false ->
  Dict.get (KStr name) variables = Some v ->
  (forall check_value : Value,
     (forall l, check_value <> VList l) ->
     (Str.endswith ".exists" name = false ->
      Str.endswith ".not" name = false ->
      check container_str (S fuel) variables (KStr name) check_value
      = Ok (String.eqb (py_str container_str v)
              (py_str container_str check_value)))
     /\ check container_str (S fuel) variables (KStr (name +:+ ".not"))
          check_value
        = Ok (negb (String.eqb (py_str container_str v)
                      (py_str container_str check_value))))
  /\ (forall l : list Value,
        (Str.endswith ".exists" name = false ->
         Str.endswith ".not" name = false ->
         check container_str (S fuel) variables (KStr name) (VList l)
         = Ok (py_in v l))
        /\ check container_str (S fuel) variables (KStr (name +:+ ".not"))
             (VList l)
           = Ok (negb (py_in v l))).
Proof.
  intros Hname Hget.
  assert (Hnot : forall cv,
            check container_str (S fuel) variables (KStr (name +:+ ".not")) cv
            = Ok (check_not container_str variables (name +:+ ".not") cv)).
  { intros cv. rewrite check_plain_key by (now apply contains_open_app).
    now rewrite not_key_is_no_exists_key, endswith_app. }
  assert (Hdrop : Str.drop_last 4 (name +:+ ".not") = name).
  { change 4 with (String.length ".not"). apply drop_last_app. }
  split.
  - intros cv Hcv. split.
    + intros He Hn. rewrite check_plain_key, He, Hn by exact Hname.
      unfold check_equal. rewrite Hget.
      destruct cv; try reflexivity. now destruct (Hcv elems).
    + rewrite Hnot. unfold check_not. rewrite Hdrop, Hget.
      destruct cv; try reflexivity. now destruct (Hcv elems).
  - intros l. split.
    + intros He Hn. rewrite check_plain_key, He, Hn by exact Hname.
      unfold check_equal. now rewrite Hget.
    + rewrite Hnot. unfold check_not. now rewrite Hdrop, Hget.
Qed.

End CheckFacts.

(** ** More on the stages of [process_template] *)

Section StageMore.

Variable container_str : Value -> string.

(** X10: the first loop over the template defaults only adds variables:
    the variables it starts from stay where they are with their values,
    and every variable that it adds has the value of a declared default,
    as declared. *)
Theorem merge_defaults_appends (fuel : nat) (defaults variables result : dict) :
  merge_defaults container_str fuel defaults variables = Ok result ->
  exists added : dict,
    result = (variables ++ added)%list
    /\ (forall kv, kv ∈ added -> exists dk, (dk, snd kv) ∈ defaults)
    /\ (forall k, Dict.mem k variables = true ->
          Dict.get k result = Dict.get k variables).
Proof.
  intros H.
  assert (P : exists added : dict,
            result = (variables ++ added)%list
            /\ forall kv, kv ∈ added -> exists dk, (dk, snd kv) ∈ defaults).
  { revert H. unfold merge_defaults.
    apply (foldM_invariant
             (fun acc : dict => exists added : dict,
                acc = (variables ++ added)%list
                /\ forall kv, kv ∈ added -> exists dk, (dk, snd kv) ∈ defaults)).
    - exists []. split; [now rewrite app_nil_r|].
      intros kv Hkv. now apply elem_of_nil in Hkv.
    - intros acc [dk dv] acc' Hin (added & -> & Hadded) Hstep.
      apply bind_ok in Hstep as (rkv & _ & Hstep).
      apply bind_ok in Hstep as (rk & _ & Hstep).
      destruct (Dict.mem rk (variables ++ added)%list) eqn:M.
      + injection Hstep as <-. now exists added.
      + injection Hstep as <-. exists (added ++ [(rk, dv)])%list. split.
        * rewrite dict_set_fresh by exact M. now rewrite app_assoc.
        * intros kv Hkv. apply elem_of_app in Hkv as [Hkv|Hkv];
            [now apply Hadded|].
          apply list_elem_of_singleton in Hkv. subst kv. now exists dk. }
  destruct P as (added & -> & Hadded). exists added.
  split; [reflexivity|]. split; [exact Hadded|].
  intros k Hk. rewrite dict_get_app.
  apply dict_mem_get in Hk as [v ->]. reflexivity.
Qed.

(** X11: the key pass of the first loop stores nothing under a key that
    holds [<<], unless another key resolves to it: a variable whose key
    holds [<<] is stored under what the key resolves to, and dropped when
    the key resolves to itself.  So when no other key of the variables
    resolves to the text [s], which holds [<<], the result of the pass has
    no binding under [s]. *)
Theorem resolve_keys_drops_unresolved (fuel : nat) (variables result : dict)
    (s : string) :
  resolve_keys container_str fuel variables = Ok result ->
  Str.contains "<<" s = true ->
  (forall vk vv,
     (vk, vv) ∈ variables ->
     resolve container_str fuel (key_value vk) variables = Ok (VStr s) ->
     vk = KStr s) ->
  Dict.get (KStr s) result = None.
Proof.
  intros H Hs Honly. revert H. unfold resolve_keys.
  apply (foldM_invariant (fun acc : dict => Dict.get (KStr s) acc = None));
    [reflexivity|].
  intros acc [vk vv] acc' Hin Hacc Hstep.
  destruct (has_open (key_value vk)) eqn:Ho.
  - apply bind_ok in Hstep as (rkv & Hr & Hstep).
    destruct (py_eq rkv (key_value vk)) eqn:E; [now injection Hstep as <-|].
    apply bind_ok in Hstep as (rk & Hh & Hstep). injection Hstep as <-.
    rewrite dict_get_set_str_other; [exact Hacc|].
    intros ->. apply hashed_str in Hh. subst rkv.
    rewrite (Honly vk vv Hin Hr) in E. simpl in E.
    now rewrite String.eqb_refl in E.
  - injection Hstep as <-. rewrite dict_get_set_str_other; [exact Hacc|].
    intros ->. simpl in Ho. congruence.
Qed.

(** X12: the second loop over the template defaults leaves alone every
    variable that has a value other than [None] and without [<<]: a
    default replaces only what is missing or unresolved. *)
Theorem remerge_defaults_keeps_resolved (fuel : nat)
    (defaults variables result : dict) (k : Key) (v : Value) :
  remerge_defaults container_str fuel defaults variables = Ok result ->
  Dict.get k variables = Some v ->
  v <> VNone ->
  has_open v = false ->
  Dict.get k result = Some v.
Proof.
  intros H Hget Hv Ho. revert H. unfold remerge_defaults.
  apply (foldM_invariant (fun acc : dict => Dict.get k acc = Some v));
    [exact Hget|].
  intros acc [dk dv] acc' Hin Hacc Hstep.
  apply bind_ok in Hstep as (rkv & _ & Hstep).
  destruct (has_open dv); [|now injection Hstep as <-].
  apply bind_ok in Hstep as (rv & _ & Hstep).
  destruct (is_none rv); [now injection Hstep as <-|].
  apply bind_ok in Hstep as (rk & _ & Hstep).
  destruct (key_eqb rk k) eqn:E.
  - assert (G : Dict.get rk acc = Some v)
      by (now rewrite (dict_get_congr rk k acc E)).
    unfold Dict.mem, Dict.get_default in Hstep. rewrite G in Hstep.
    assert (Hn : is_none v = false) by (destruct v; simpl; congruence).
    rewrite Hn, Ho in Hstep. simpl in Hstep. now injection Hstep as <-.
  - destruct (negb (Dict.mem rk acc) || is_none (Dict.get_default rk VNone acc)
              || has_open (Dict.get_default rk VNone acc))%bool;
      injection Hstep as <-; [|exact Hacc].
    now rewrite dict_get_set_ne.
Qed.

End StageMore.

(** ** More on the template loader *)

Section LoaderMore.

Variable defaults_dir : string.

(** X13: a load that succeeds is cached under the source: the templates of
    the document, or the empty mapping for a document that is empty or
    false, are what every later call returns, whatever the files have
    become. *)
Theorem load_templates_caches_success (fs : filesystem)
    (cache : gmap string Value) (template_source : string) (data : Value) :
  cache !! template_source = None ->
  fs (template_path defaults_dir template_source) = Present (Loaded data) ->
  truthy data = false \/ (exists d, data = VDict d) ->
  exists templates : Value,
    (truthy data = false -> templates = VDict [])
    /\ (forall d, truthy data = true -> data = VDict d ->
          templates = Dict.get_default (KStr "templates") (VDict []) d)
    /\ load_templates defaults_dir fs cache template_source
       = (<[template_source := templates]> cache, Ok templates)
    /\ forall fs' : filesystem,
         load_templates defaults_dir fs'
           (<[template_source := templates]> cache) template_source
         = (<[template_source := templates]> cache, Ok templates).
Proof.
  intros Hc Hfs Hdata.
  assert (R : exists templates,
            read_templates (Loaded data) = Ok templates
            /\ (truthy data = false -> templates = VDict [])
            /\ (forall d, truthy data = true -> data = VDict d ->
                  templates = Dict.get_default (KStr "templates") (VDict []) d)).
  { unfold read_templates. destruct (truthy data) eqn:T.
    - destruct Hdata as [Hd | [d ->]]; [discriminate|].
      eexists. split; [reflexivity|]. split; [discriminate|].
      now intros d' _ [= <-].
    - eexists. split; [reflexivity|]. split; [reflexivity | discriminate]. }
  destruct R as (templates & R & H1 & H2). exists templates.
  split; [exact H1|]. split; [exact H2|]. split.
  - unfold load_templates. now rewrite Hc, Hfs, R.
  - intros fs'. unfold load_templates. now rewrite lookup_insert_eq.
Qed.

(** X14: [load_templates] touches the cache at its source only, and only to
    add: what is cached under any source stays cached with the same
    value. *)
Theorem load_templates_cache_frame (fs : filesystem) (cache : gmap string Value)
    (template_source : string) :
  (forall other : string,
     other <> template_source ->
     fst (load_templates defaults_dir fs cache template_source) !! other
     = cache !! other)
  /\ (forall (s : string) (t : Value),
        cache !! s = Some t ->
        fst (load_templates defaults_dir fs cache template_source) !! s = Some t)
  /\ (forall t : Value,
        cache !! template_source = Some t ->
        load_templates defaults_dir fs cache template_source = (cache, Ok t)).
Proof.
  assert (F : forall other : string,
            other <> template_source ->
            fst (load_templates defaults_dir fs cache template_source) !! other
            = cache !! other).
  { intros other Hne. unfold load_templates.
    destruct (cache !! template_source); [reflexivity|].
    destruct (fs (template_path defaults_dir template_source)) as [| |o];
      try reflexivity.
    destruct (read_templates o); cbn [fst]; try reflexivity.
    now apply lookup_insert_ne. }
  split; [exact F|]. split.
  - intros s t Hs. destruct (decide (s = template_source)) as [->|Hne].
    + unfold load_templates. now rewrite Hs.
    + now rewrite F.
  - intros t Ht. unfold load_templates. now rewrite Ht.
Qed.

End LoaderMore.

(** ** More on [preprocess_template_variables] *)

Lemma deref_alloc (h : list dict) (d : dict) :
  deref (fst (alloc h d)) (snd (alloc h d)) = d.
Proof.
  unfold deref, alloc. cbn [fst snd].
  rewrite lookup_app_r by apply Nat.le_refl.
  match goal with
  | |- context [?a - ?b] =>
      replace (a - b) with 0 by (symmetry; apply Nat.sub_diag)
  end.
  reflexivity.
Qed.

Lemma deref_setitem (h : list dict) (l : nat) (k : Key) (v : Value) :
  l < length h -> deref (setitem h l k v) l = Dict.set k v (deref h l).
Proof.
  intros Hl. unfold setitem, deref at 1.
  now rewrite list_lookup_insert_eq.
Qed.

Lemma setitem_length (h : list dict) (l : nat) (k : Key) (v : Value) :
  length (setitem h l k v) = length h.
Proof. unfold setitem. apply length_insert. Qed.

Lemma expand_rating_length (result : nat) (h : list dict) (i : Z) :
  length (expand_rating result h i) = length h.
Proof.
  unfold expand_rating.
  destruct (Dict.get _ (deref h result)) as [[| | |value| |]|]; try reflexivity.
  destruct (Str.contains " / " value); [|reflexivity].
  destruct (Str.split_once " / " value) as [[a b]|]; [|reflexivity].
  now rewrite !setitem_length.
Qed.

(** A turn of the loop writes to the two keys of its rating only. *)
Lemma expand_rating_other (result : nat) (h : list dict) (i : Z) (key : string) :
  result < length h ->
  key <> "rating" +:+ int_str i ->
  key <> ("rating" +:+ int_str i) +:+ "_image" ->
  Dict.get (KStr key) (deref (expand_rating result h i) result)
  = Dict.get (KStr key) (deref h result).
Proof.
  intros Hl H1 H2. unfold expand_rating.
  destruct (Dict.get _ (deref h result)) as [[| | |value| |]|]; try reflexivity.
  destruct (Str.contains " / " value); [|reflexivity].
  destruct (Str.split_once " / " value) as [[a b]|]; [|reflexivity].
  rewrite deref_setitem by (now rewrite setitem_length).
  rewrite dict_get_set_str_other by congruence.
  rewrite deref_setitem by exact Hl.
  now rewrite dict_get_set_str_other by congruence.
Qed.

Lemma expand_rating_no_shorthand (result : nat) (h : list dict) (i : Z) :
  (forall value,
     Dict.get (KStr ("rating" +:+ int_str i)) (deref h result)
       = Some (VStr value) ->
     Str.contains " / " value = false) ->
  expand_rating result h i = h.
Proof.
  intros H. unfold expand_rating.
  destruct (Dict.get _ (deref h result)) as [[| | |value| |]|]; try reflexivity.
  now rewrite (H value eq_refl).
Qed.

(** X15: without shorthand, [preprocess_template_variables] returns a new
    dictionary with the items of its argument: when none of [rating1],
    [rating2], [rating3] is bound to a string that holds [" / "], the copy
    is equal to the original. *)
Theorem preprocess_without_shorthand (h : list dict) (variables : nat) :
  (forall key value,
     key ∈ rating_keys ->
     Dict.get (KStr key) (deref h variables) = Some (VStr value) ->
     Str.contains " / " value = false) ->
  preprocess_template_variables h variables
  = ((h ++ [deref h variables])%list, length h).
Proof.
  intros H. unfold preprocess_template_variables.
  pose proof (deref_alloc h (deref h variables)) as D.
  destruct (alloc h (deref h variables)) as [h1 result] eqn:A.
  cbn [fst snd] in D. unfold alloc in A. injection A as <- <-.
  assert (E : forall i : Z,
            "rating" +:+ int_str i ∈ rating_keys ->
            expand_rating (length h) (h ++ [deref h variables])%list i
            = (h ++ [deref h variables])%list).
  { intros i Hi. apply expand_rating_no_shorthand. intros value.
    rewrite D. now apply H. }
  cbn [fold_left]. rewrite (E 1%Z), (E 2%Z), (E 3%Z); [reflexivity | | |].
  - change ("rating" +:+ int_str 3) with "rating3". unfold rating_keys.
    repeat constructor.
  - change ("rating" +:+ int_str 2) with "rating2". unfold rating_keys.
    repeat constructor.
  - change ("rating" +:+ int_str 1) with "rating1". unfold rating_keys.
    repeat constructor.
Qed.

Lemma split_once_first (t img : string) :
  lacks "/" t = true ->
  Str.split_once " / " (t +:+ " / " +:+ img) = Some (t, img)
  /\ Str.contains " / " (t +:+ " / " +:+ img) = true.
Proof.
  induction t as [|a t IH]; intros Ht.
  - split; simpl; now destruct img.
  - simpl in Ht. apply andb_prop in Ht as [Ha Ht]. apply negb_true_iff in Ha.
    destruct (IH Ht) as [IH1 IH2].
    change (String a t +:+ " / " +:+ img) with (String a (t +:+ " / " +:+ img)).
    split; [|now apply contains_tail].
    assert (P : String.prefix " / " (String a (t +:+ " / " +:+ img)) = false).
    { destruct (Ascii.eqb a " ") eqn:Hs; [|now apply prefix_head_mismatch].
      apply Ascii.eqb_eq in Hs. subst a. rewrite prefix_cons_same.
      destruct t as [|b t]; [reflexivity|].
      simpl in Ht. apply andb_prop in Ht as [Hb _]. apply negb_true_iff in Hb.
      now apply prefix_head_mismatch. }
    cbn [Str.split_once]. rewrite P. now rewrite IH1.
Qed.

Lemma image_key_differs (key : string) : key +:+ "_image" <> key.
Proof.
  intros E. apply (f_equal String.length) in E.
  rewrite str_length_app in E. simpl in E. lia.
Qed.

(** A turn of the loop on a rating in shorthand. *)
Lemma expand_rating_hit (result : nat) (h : list dict) (i : Z) (t img : string) :
  result < length h ->
  Dict.get (KStr ("rating" +:+ int_str i)) (deref h result)
    = Some (VStr (t +:+ " / " +:+ img)) ->
  lacks "/" t = true ->
  Dict.get (KStr ("rating" +:+ int_str i))
    (deref (expand_rating result h i) result)
    = Some (VStr (Str.strip t))
  /\ Dict.get (KStr (("rating" +:+ int_str i) +:+ "_image"))
       (deref (expand_rating result h i) result)
     = Some (VStr (Str.strip img)).
Proof.
  intros Hl Hget Ht. unfold expand_rating. rewrite Hget.
  destruct (split_once_first t img Ht) as [-> ->].
  rewrite deref_setitem by (now rewrite setitem_length).
  rewrite deref_setitem by exact Hl. split.
  - rewrite dict_get_set_str_other.
    + apply dict_get_set_same.
    + intros [= E]. now apply image_key_differs in E.
  - apply dict_get_set_same.
Qed.

(** X16: the rating shorthand is expanded in the copy: when one of
    [rating1], [rating2], [rating3] is bound to the string [t / img], where
    [t] holds no slash, the copy binds it to [t] and binds the key with
    [_image] appended to [img], both stripped of white space. *)
Theorem preprocess_expands_shorthand (h : list dict) (variables : nat)
    (key t img : string) :
  key ∈ rating_keys ->
  Dict.get (KStr key) (deref h variables) = Some (VStr (t +:+ " / " +:+ img)) ->
  lacks "/" t = true ->
  Dict.get (KStr key)
    (deref (fst (preprocess_template_variables h variables))
       (snd (preprocess_template_variables h variables)))
    = Some (VStr (Str.strip t))
  /\ Dict.get (KStr (key +:+ "_image"))
       (deref (fst (preprocess_template_variables h variables))
          (snd (preprocess_template_variables h variables)))
     = Some (VStr (Str.strip img)).
Proof.
  intros Hkey Hget Ht. unfold preprocess_template_variables.
  pose proof (deref_alloc h (deref h variables)) as D.
  destruct (alloc h (deref h variables)) as [h1 result] eqn:A.
  cbn [fst snd] in *.
  assert (L1 : result < length h1).
  { unfold alloc in A. injection A as <- <-. rewrite length_app. simpl. lia. }
  cbn [fold_left].
  set (h2 := expand_rating result h1 1).
  set (h3 := expand_rating result h2 2).
  set (h4 := expand_rating result h3 3).
  assert (L2 : result < length h2)
    by (unfold h2; now rewrite expand_rating_length).
  assert (L3 : result < length h3)
    by (unfold h3; now rewrite expand_rating_length).
  assert (O : forall (hh : list dict) (i : Z) (k : string),
            result < length hh ->
            k <> "rating" +:+ int_str i ->
            k <> ("rating" +:+ int_str i) +:+ "_image" ->
            Dict.get (KStr k) (deref (expand_rating result hh i) result)
            = Dict.get (KStr k) (deref hh result))
    by (intros; now apply expand_rating_other).
  unfold rating_keys in Hkey.
  apply elem_of_cons in Hkey as [-> | Hkey];
    [|apply elem_of_cons in Hkey as [-> | Hkey];
      [|apply elem_of_cons in Hkey as [-> | Hkey];
        [|now apply elem_of_nil in Hkey]]].
  - destruct (expand_rating_hit result h1 1 t img L1) as [G1 G2];
      [now rewrite D | exact Ht |].
    fold h2 in G1, G2. unfold h4, h3.
    rewrite !O by (try assumption; intros E; vm_compute in E; discriminate E).
    now split.
  - assert (G : Dict.get (KStr "rating2") (deref h2 result)
                = Some (VStr (t +:+ " / " +:+ img))).
    { unfold h2. rewrite O by
        (try assumption; intros E; vm_compute in E; discriminate E).
      now rewrite D. }
    destruct (expand_rating_hit result h2 2 t img L2 G Ht) as [G1 G2].
    fold h3 in G1, G2. unfold h4.
    rewrite !O by (try assumption; intros E; vm_compute in E; discriminate E).
    now split.
  - assert (G : Dict.get (KStr "rating3") (deref h3 result)
                = Some (VStr (t +:+ " / " +:+ img))).
    { unfold h3, h2. rewrite !O by
        (try assumption; intros E; vm_compute in E; discriminate E).
      now rewrite D. }
    destruct (expand_rating_hit result h3 3 t img L3 G Ht) as [G1 G2].
    now split.
Qed.

(** ** More on [_extract_external_template_vars] *)

Lemma fold_left_invariant {A B : Type} (P : B -> Prop) (f : B -> A -> B)
    (l : list A) (b : B) :
  P b ->
  (forall b a, a ∈ l -> P b -> P (f b a)) ->
  P (fold_left f l b).
Proof.
  revert b. induction l as [|x l IH]; intros b Hb Hstep; cbn [fold_left];
    [exact Hb|].
  apply IH.
  - apply Hstep; [now apply elem_of_cons; left | exact Hb].
  - intros b' a Ha. apply Hstep. now apply elem_of_cons; right.
Qed.

Lemma dict_mem_of_item (k k' : Key) (v' : Value) (d : dict) :
  (k', v') ∈ d -> key_eqb k k' = true -> Dict.mem k d = true.
Proof.
  unfold Dict.mem. induction d as [|[k0 v0] d IH]; intros Hin Hk.
  - now apply elem_of_nil in Hin.
  - cbn [Dict.get]. apply elem_of_cons in Hin as [[= <- <-] | Hin].
    + now rewrite Hk.
    + destruct (key_eqb k k0); [reflexivity | now apply IH].
Qed.

Lemma dict_unique_app_r (l1 l2 : dict) :
  dict_unique (l1 ++ l2)%list = true -> dict_unique l2 = true.
Proof.
  induction l1 as [|[k v] l1 IH]; cbn [app dict_unique]; [trivial|].
  intros H. apply andb_prop in H as [_ H]. now apply IH.
Qed.

Lemma dict_unique_later (l1 l2 : dict) (k k' : Key) (v v' : Value) :
  dict_unique (l1 ++ (k, v) :: l2)%list = true ->
  (k', v') ∈ l2 ->
  key_eqb k k' = false.
Proof.
  intros H Hin. apply dict_unique_app_r in H. cbn [dict_unique] in H.
  apply andb_prop in H as [H _]. apply negb_true_iff in H.
  destruct (key_eqb k k') eqn:E; [|reflexivity].
  now rewrite (dict_mem_of_item k k' v' l2 Hin E) in H.
Qed.

(** X17: a template variable given beside the [default] block wins over
    the block, whichever comes first: an entry of [template_variables]
    that is not the [default] or the [conditionals] mapping is a variable
    with the declared value. *)
Theorem extract_regular_entry_wins (ext_tmpl tmpl_vars : dict) (tk : Key)
    (tv : Value) :
  Dict.get (KStr "template_variables") ext_tmpl = Some (VDict tmpl_vars) ->
  dict_unique tmpl_vars = true ->
  (tk, tv) ∈ tmpl_vars ->
  (forall d, tv <> VDict d)
  \/ (key_eqb tk (KStr "default") = false
      /\ key_eqb tk (KStr "conditionals") = false) ->
  Dict.get tk (fst (extract_external_template_vars ext_tmpl)) = Some tv.
Proof.
  intros Hget Hu Hin Hreg. unfold extract_external_template_vars.
  rewrite Hget.
  apply list_elem_of_split in Hin as (l1 & l2 & ->).
  rewrite fold_left_app. cbn [fold_left].
  match goal with
  | |- context [fold_left ?f l1 ?b] => destruct (fold_left f l1 b) as [vs cs]
  end.
  apply (fold_left_invariant
           (fun st : dict * dict => Dict.get tk (fst st) = Some tv)).
  - assert (E : forall vs' : dict,
              Dict.get tk (fst (Dict.set tk tv vs', cs)) = Some tv)
      by (intros; apply dict_get_set_same).
    destruct tv as [| | | |d|]; try apply E.
    destruct Hreg as [Hreg | [H1 H2]]; [now destruct (Hreg d)|].
    rewrite H1, H2. apply E.
  - intros [vs' cs'] [k' v'] Hin' Hst. cbn [fst] in Hst.
    pose proof (dict_unique_later l1 l2 tk k' tv v' Hu Hin') as Hne.
    assert (R : Dict.get tk (fst (Dict.set k' v' vs', cs')) = Some tv).
    { cbn [fst]. rewrite dict_get_set_ne; [exact Hst|].
      now rewrite key_eqb_sym. }
    destruct v' as [| | | |d|]; try exact R.
    destruct (key_eqb k' (KStr "default")).
    + cbn [fst].
      apply (fold_left_invariant
               (fun acc : dict => Dict.get tk acc = Some tv)); [exact Hst|].
      intros acc [dk dv] _ Hacc.
      destruct (Dict.mem dk acc) eqn:M; [exact Hacc|].
      rewrite dict_get_set_ne; [exact Hacc|].
      destruct (key_eqb dk tk) eqn:E; [|reflexivity].
      unfold Dict.mem in M.
      now rewrite (dict_get_congr dk tk acc E), Hacc in M.
    + destruct (key_eqb k' (KStr "conditionals")); [exact Hst | exact R].
Qed.

(** ** More on the overlay file expander *)

Lemma prefix_nil (s : string) : String.prefix "" s = true.
Proof. now destruct s. Qed.

Lemma contains_dash_lacks (s : string) :
  Str.contains "-" s = negb (lacks "-" s).
Proof.
  induction s as [|c s IH]; [reflexivity|].
  cbn [Str.contains lacks]. rewrite IH.
  destruct (Ascii.eqb c "-") eqn:E.
  - apply Ascii.eqb_eq in E. subst c. rewrite prefix_cons_same, prefix_nil.
    reflexivity.
  - rewrite prefix_head_mismatch by exact E. simpl.
    now destruct (lacks "-" s).
Qed.

(** The text after the last dash. *)
Lemma last_dash_segment_spec (s : string) :
  Str.contains "-" s = true ->
  lacks "-" (Str.last_dash_segment s) = true
  /\ exists p, s = p +:+ "-" +:+ Str.last_dash_segment s.
Proof.
  induction s as [|c s IH]; [discriminate|]. intros H.
  cbn [Str.last_dash_segment].
  destruct (Str.contains "-" s) eqn:E.
  - destruct (IH eq_refl) as [Hl [p Hp]]. split; [exact Hl|].
    exists (String c p).
    change (String c s
            = String c (p +:+ "-" +:+ Str.last_dash_segment s)).
    f_equal. exact Hp.
  - cbn [Str.contains] in H. rewrite E, orb_false_r in H.
    destruct (Ascii.eqb c "-") eqn:Hc.
    + apply Ascii.eqb_eq in Hc. subst c. split.
      * rewrite contains_dash_lacks in E. now apply negb_false_iff in E.
      * now exists "".
    + now rewrite prefix_head_mismatch in H.
Qed.

(** X18: the [key] variable of a template entry.  The variables of the
    entry are the caller's, updated with the [variables] and
    [template_variables] blocks of the entry.  When they bind [key] they are
    the entry's variables as they are, whatever the name of the entry.  When
    they do not, [key] is appended to them: it is the text after the last
    dash of the entry's name, or the whole name when it has no dash; a name
    that is not a string raises [TypeError]. *)
Theorem entry_key_from_name (user_vars overlay_def : dict) :
  (Dict.mem (KStr "key") (declared_variables user_vars overlay_def) = true ->
   forall overlay_name : Key,
     entry_variables user_vars overlay_name overlay_def
     = Ok (declared_variables user_vars overlay_def))
  /\ (Dict.mem (KStr "key") (declared_variables user_vars overlay_def) = false ->
      (forall name : string,
         exists seg : string,
           entry_variables user_vars (KStr name) overlay_def
             = Ok (declared_variables user_vars overlay_def
                     ++ [(KStr "key", VStr seg)])%list
           /\ lacks "-" seg = true
           /\ (name = seg \/ exists p, name = p +:+ "-" +:+ seg))
      /\ (forall overlay_name : Key,
            (forall name, overlay_name <> KStr name) ->
            entry_variables user_vars overlay_name overlay_def
            = Raise TypeError)).
Proof.
  unfold entry_variables. split; [now intros -> |].
  intros Hk. rewrite Hk. split.
  - intros name. rewrite dict_set_fresh by exact Hk.
    destruct (Str.contains "-" name) eqn:E.
    + destruct (last_dash_segment_spec name E) as [Hl Hp].
      eexists. split; [reflexivity|]. split; [exact Hl | now right].
    + eexists. split; [reflexivity|]. split; [|now left].
      rewrite contains_dash_lacks in E. now apply negb_false_iff in E.
  - intros overlay_name Hn.
    destruct overlay_name; try reflexivity. now destruct (Hn s).
Qed.

Section ExpanderMore.

Variable container_str : Value -> string.
Variable defaults_dir : string.

Lemma merge_resolved_clean (resolved merged result : dict) :
  merge_resolved resolved merged = Ok result ->
  (forall k v, (k, v) ∈ merged ->
     exists name, k = KStr name /\ Str.startswith "_" name = false /\ v <> VNone) ->
  forall k v, (k, v) ∈ result ->
    exists name, k = KStr name /\ Str.startswith "_" name = false /\ v <> VNone.
Proof.
  intros H Hm. revert H. unfold merge_resolved.
  apply (foldM_invariant
           (fun m : dict => forall k v, (k, v) ∈ m ->
              exists name, k = KStr name /\ Str.startswith "_" name = false
                           /\ v <> VNone)); [exact Hm|].
  intros m [rk rv] m' _ Hacc Hstep k v Hkv.
  destruct rk as [| | |name]; try discriminate Hstep.
  destruct (Str.startswith "_" name) eqn:S; cbn [negb andb] in Hstep;
    [injection Hstep as <-; now apply Hacc|].
  destruct (is_none rv) eqn:N; cbn [negb] in Hstep;
    injection Hstep as <-; [now apply Hacc|].
  apply dict_set_elem in Hkv as [Hkv | [-> Hk]]; [now apply Hacc|].
  apply key_eqb_str_l in Hk. subst k. exists name.
  repeat split; [exact S|]. intros ->. discriminate N.
Qed.

Lemma apply_call_clean (fuel : nat)
    (all_templates external_conditionals overlay_vars merged : dict)
    (tmpl_call : Value) (result : dict) :
  apply_call container_str fuel all_templates external_conditionals overlay_vars
    merged tmpl_call = Ok result ->
  (forall k v, (k, v) ∈ merged ->
     exists name, k = KStr name /\ Str.startswith "_" name = false /\ v <> VNone) ->
  forall k v, (k, v) ∈ result ->
    exists name, k = KStr name /\ Str.startswith "_" name = false /\ v <> VNone.
Proof.
  unfold apply_call. intros H Hm.
  destruct (call_parts tmpl_call) as [[tmpl_name tmpl_vars]|];
    [|injection H as <-; exact Hm].
  apply bind_ok in H as (name_key & _ & H).
  destruct (Dict.get name_key all_templates) as [template_def|];
    [|injection H as <-; exact Hm].
  apply bind_ok in H as (effective & _ & H).
  apply bind_ok in H as (resolved & _ & H).
  now apply (merge_resolved_clean resolved merged).
Qed.

(** X19: in the element appended for an entry with a [template] field, the
    only keys that begin with an underscore are [_original_name] and
    [_template]; every other key is a string and its value is not [None]:
    what the templates resolve to cannot pose as bookkeeping. *)
Theorem template_entry_bookkeeping (fuel : nat)
    (all_templates external_conditionals user_vars : dict) (overlay_name : Key)
    (overlay_def : dict) (template_call : Value) (elem : dict) :
  expand_template_entry container_str fuel all_templates external_conditionals
    user_vars overlay_name overlay_def template_call = Ok (Some elem) ->
  forall k v, (k, v) ∈ elem ->
    k = KStr "_original_name" \/ k = KStr "_template"
    \/ exists name,
         k = KStr name /\ Str.startswith "_" name = false /\ v <> VNone.
Proof.
  unfold expand_template_entry. intros H k v Hkv.
  apply bind_ok in H as (overlay_vars & _ & H).
  apply bind_ok in H as (merged & Hm & H).
  destruct (truthy (VDict merged)); [|discriminate].
  apply bind_ok in H as (names & _ & H). injection H as <-.
  assert (C : forall k v, (k, v) ∈ merged ->
            exists name, k = KStr name /\ Str.startswith "_" name = false
                         /\ v <> VNone).
  { revert Hm.
    apply (foldM_invariant
             (fun m : dict => forall k v, (k, v) ∈ m ->
                exists name, k = KStr name /\ Str.startswith "_" name = false
                             /\ v <> VNone)).
    - intros k0 v0 H0. now apply elem_of_nil in H0.
    - intros m call m' _ Hacc Hstep. now apply (apply_call_clean _ _ _ _ _ _ _ Hstep). }
  apply dict_set_elem in Hkv as [Hkv | [_ Hk]].
  - apply dict_set_elem in Hkv as [Hkv | [_ Hk]].
    + right. right. now apply C.
    + left. now apply key_eqb_str_l in Hk.
  - right. left. now apply key_eqb_str_l in Hk.
Qed.

Lemma expand_entry_original_name (fuel : nat)
    (all_templates external_conditionals user_vars : dict) (overlay_name : Key)
    (overlay_def : Value) (elem : dict) :
  expand_entry container_str fuel all_templates external_conditionals user_vars
    overlay_name overlay_def = Ok (Some elem) ->
  Dict.get_default (KStr "_original_name") VNone elem = key_value overlay_name.
Proof.
  unfold expand_entry, Dict.get_default.
  destruct overlay_def as [| | | |overlay_def|]; try discriminate.
  destruct (Dict.get (KStr "template") overlay_def) as [template_call|].
  - unfold expand_template_entry. intros H.
    apply bind_ok in H as (overlay_vars & _ & H).
    apply bind_ok in H as (merged & _ & H).
    destruct (truthy (VDict merged)); [|discriminate].
    apply bind_ok in H as (names & _ & H). injection H as <-.
    rewrite dict_get_set_str_other by discriminate.
    now rewrite dict_get_set_same.
  - destruct (Dict.get (KStr "overlay") overlay_def) as [[| | | |cfg|]|];
      try discriminate.
    unfold expand_direct_entry. intros H.
    apply bind_ok in H as (resolved & H & [= <-]).
    apply bind_ok in H as (r & _ & [= <-]).
    rewrite dict_get_set_str_other by discriminate.
    now rewrite dict_get_set_same.
Qed.

Lemma expand_entries_names (fuel : nat)
    (all_templates external_conditionals user_vars : dict)
    (overlays_section : dict) :
  forall acc out : list dict,
    foldM (fun expanded_overlays '(overlay_name, overlay_def) =>
             let* appended :=
               expand_entry container_str fuel all_templates
                 external_conditionals user_vars overlay_name overlay_def in
             match appended with
             | Some overlay => Ok (expanded_overlays ++ [overlay])%list
             | None => Ok expanded_overlays
             end)
          overlays_section acc = Ok out ->
    exists new : list dict,
      out = (acc ++ new)%list
      /\ sublist (map (Dict.get_default (KStr "_original_name") VNone) new)
           (map key_value (map fst overlays_section)).
Proof.
  induction overlays_section as [|[name def] rest IH]; intros acc out;
    cbn [foldM].
  - intros [= <-]. exists []. split; [now rewrite app_nil_r | constructor].
  - intros H. apply bind_ok in H as (acc' & Hstep & H).
    apply bind_ok in Hstep as (appended & He & Hstep).
    destruct (IH acc' out H) as (new & -> & Hsub).
    destruct appended as [elem|]; injection Hstep as <-.
    + exists (elem :: new). split; [now rewrite <- app_assoc|].
      cbn [map fst]. rewrite (expand_entry_original_name _ _ _ _ _ _ _ He).
      now apply sublist_skip.
    + exists new. split; [reflexivity|]. cbn [map fst].
      now apply sublist_cons.
Qed.

(** X20: the elements that [expand_overlay_file] returns carry, under
    [_original_name], names that [get_overlay_keys_from_file] lists for the
    same file, in the same order and each at most once per entry. *)
Theorem expanded_names_are_overlay_keys (fuel : nat) (fs : filesystem)
    (st : state) (file_path : string) (user_template_variables : option nat)
    (out : list dict) :
  snd (expand_overlay_file container_str defaults_dir fuel fs st file_path
         user_template_variables) = Ok out ->
  exists keys : list Key,
    get_overlay_keys_from_file fs file_path = Ok keys
    /\ sublist (map (Dict.get_default (KStr "_original_name") VNone) out)
         (map key_value keys).
Proof.
  unfold expand_overlay_file, get_overlay_keys_from_file.
  destruct (fs file_path) as [| |[|data]];
    try (cbn [snd]; discriminate);
    try (intros [= <-]; exists []; split; [reflexivity | constructor]).
  destruct (truthy data); cbn [negb];
    [|intros [= <-]; exists []; split; [reflexivity | constructor]].
  destruct (match user_template_variables with
            | Some _ => _
            | None => _
            end) as [h variables].
  destruct (preprocess_template_variables h variables) as [h' user_vars].
  destruct data as [| | | |data|]; cbn [snd]; try discriminate;
    try (destruct (Str.contains "external_templates" _); discriminate);
    try (destruct (py_in _ _); discriminate).
  destruct (load_external defaults_dir fs (State (template_cache st) h') data
              user_vars) as [st' external].
  cbn [snd]. intros H. apply bind_ok in H as ([ext conds] & _ & H).
  unfold expand_overlays, Dict.get_default in H.
  destruct ext as [| | | |ext|]; try discriminate H.
  destruct (match Dict.get (KStr "templates") data with
            | Some v => v
            | None => VDict []
            end) as [| | | |local|]; try discriminate H.
  destruct (Dict.get (KStr "overlays") data) as [[| | | |overlays|]|];
    try discriminate H.
  - unfold expand_entries in H.
    apply expand_entries_names in H as (new & -> & Hsub).
    exists (map fst overlays). now split.
  - unfold expand_entries in H. cbn [foldM] in H. injection H as <-.
    exists []. split; [reflexivity | constructor].
Qed.

End ExpanderMore.

Lemma dict_update_shadow (other d d' : dict) :
  (forall k, Dict.mem k other = false -> Dict.get k d = Dict.get k d') ->
  forall k, Dict.get k (Dict.update d other) = Dict.get k (Dict.update d' other).
Proof.
  unfold Dict.update. revert d d'.
  induction other as [|[k0 v0] other IH]; intros d d' H k; cbn [fold_left].
  - now apply H.
  - apply IH. intros k1 Hk1. cbn [fst snd].
    destruct (key_eqb k0 k1) eqn:E.
    + now rewrite !dict_get_set_eq by exact E.
    + rewrite !dict_get_set_ne by exact E. apply H.
      unfold Dict.mem in *. cbn [Dict.get]. now rewrite key_eqb_sym, E.
Qed.

Lemma foldM_ext {A B : Type} (f g : B -> A -> res B) (l : list A) :
  (forall b a, f b a = g b a) -> forall b, foldM f l b = foldM g l b.
Proof.
  intros H. induction l as [|x l IH]; intros b; cbn [foldM]; [reflexivity|].
  rewrite H. destruct (g b x); cbn [bind]; auto.
Qed.

Section TemplateLookup.

Variable container_str : Value -> string.
Variables (fuel : nat) (t1 t2 : dict).
Hypothesis same_lookup : forall k, Dict.get k t1 = Dict.get k t2.

Lemma apply_call_ext (external_conditionals overlay_vars merged : dict)
    (tmpl_call : Value) :
  apply_call container_str fuel t1 external_conditionals overlay_vars merged
    tmpl_call
  = apply_call container_str fuel t2 external_conditionals overlay_vars merged
      tmpl_call.
Proof.
  unfold apply_call.
  destruct (call_parts tmpl_call) as [[tmpl_name tmpl_vars]|]; [|reflexivity].
  destruct (hashed tmpl_name) as [name_key| |]; cbn [bind]; try reflexivity.
  now rewrite same_lookup.
Qed.

Lemma expand_entry_ext (external_conditionals user_vars : dict)
    (overlay_name : Key) (overlay_def : Value) :
  expand_entry container_str fuel t1 external_conditionals user_vars
    overlay_name overlay_def
  = expand_entry container_str fuel t2 external_conditionals user_vars
      overlay_name overlay_def.
Proof.
  unfold expand_entry.
  destruct overlay_def as [| | | |overlay_def|]; try reflexivity.
  destruct (Dict.get (KStr "template") overlay_def) as [template_call|];
    [|reflexivity].
  unfold expand_template_entry.
  destruct (entry_variables user_vars overlay_name overlay_def)
    as [overlay_vars| |]; cbn [bind]; try reflexivity.
  now rewrite (foldM_ext _ _ _ (apply_call_ext external_conditionals overlay_vars)).
Qed.

Lemma expand_entries_ext (external_conditionals user_vars overlays : dict) :
  expand_entries container_str fuel t1 external_conditionals user_vars overlays
  = expand_entries container_str fuel t2 external_conditionals user_vars
      overlays.
Proof.
  unfold expand_entries. apply foldM_ext. intros acc [name def].
  now rewrite expand_entry_ext.
Qed.

End TemplateLookup.

Section ExpanderFile.

Variable container_str : Value -> string.
Variable defaults_dir : string.

(** X21: the templates of the file shadow the external ones: the expansion
    depends on the external templates only at the names the file does not
    define itself. *)
Theorem local_templates_shadow_external (fuel : nat)
    (data local ext ext' external_conditionals user_vars : dict) :
  Dict.get_default (KStr "templates") (VDict []) data = VDict local ->
  (forall k, Dict.mem k local = false -> Dict.get k ext = Dict.get k ext') ->
  expand_overlays container_str fuel data (VDict ext) external_conditionals
    user_vars
  = expand_overlays container_str fuel data (VDict ext') external_conditionals
      user_vars.
Proof.
  intros Hl H. unfold expand_overlays. rewrite Hl.
  destruct (Dict.get_default (KStr "overlays") (VDict []) data)
    as [| | | |overlays|]; try reflexivity.
  apply expand_entries_ext. now apply dict_update_shadow.
Qed.


(** X23: a document that is not empty and not a mapping makes
    [expand_overlay_file] raise: only reading and parsing are guarded. *)
Theorem expand_overlay_file_rejects_non_mapping (fuel : nat) (fs : filesystem)
    (st : state) (file_path : string) (user_template_variables : option nat)
    (data : Value) :
  fs file_path = Present (Loaded data) ->
  truthy data = true ->
  (forall d, data <> VDict d) ->
  exists e : exn,
    snd (expand_overlay_file container_str defaults_dir fuel fs st file_path
           user_template_variables) = Raise e.
Proof.
  intros Hf Ht Hd. unfold expand_overlay_file. rewrite Hf, Ht. cbn [negb].
  destruct (match user_template_variables with
            | Some _ => _
            | None => _
            end) as [h variables].
  destruct (preprocess_template_variables h variables) as [h' user_vars].
  destruct data as [| | | |d|]; cbn [snd]; eauto. now destruct (Hd d).
Qed.

(** X24: the variables of an [external_templates] block are defaults: on
    the caller's dictionary they are only appended, so every key that the
    caller bound keeps its value. *)
Theorem external_variables_never_override (fs : filesystem) (st : state)
    (data : dict) (user_vars : nat) :
  user_vars < length (heap st) ->
  exists added : dict,
    deref (heap (fst (load_external defaults_dir fs st data user_vars)))
      user_vars
    = (deref (heap st) user_vars ++ added)%list
    /\ forall k, Dict.mem k (deref (heap st) user_vars) = true ->
         Dict.get k
           (deref (heap (fst (load_external defaults_dir fs st data user_vars)))
              user_vars)
         = Dict.get k (deref (heap st) user_vars).
Proof.
  intros Hl.
  assert (G : exists added : dict,
            deref (heap (fst (load_external defaults_dir fs st data user_vars)))
              user_vars
            = (deref (heap st) user_vars ++ added)%list).
  { unfold load_external.
    destruct (Dict.get (KStr "external_templates") data)
      as [[| | | |ext_tmpl|]|];
      try (exists []; cbn [fst]; now rewrite app_nil_r).
    destruct (load_templates_from defaults_dir fs (template_cache st) _)
      as [cache loaded].
    destruct loaded as [external_templates| |];
      try (exists []; cbn [fst heap]; now rewrite app_nil_r).
    destruct (extract_external_template_vars ext_tmpl) as [ext_vars ext_conds].
    cbn [fst heap].
    apply (fold_left_invariant
             (fun h : list dict =>
                length h = length (heap st)
                /\ exists added : dict,
                     deref h user_vars
                     = (deref (heap st) user_vars ++ added)%list)).
    - split; [reflexivity|]. exists []. now rewrite app_nil_r.
    - intros h [ek ev] _ [Hlen [added Hd]].
      destruct (Dict.mem ek (deref h user_vars)) eqn:M; [now eauto|].
      split; [now rewrite setitem_length|].
      rewrite deref_setitem by (rewrite Hlen; exact Hl).
      rewrite dict_set_fresh by exact M. rewrite Hd, <- app_assoc. eauto. }
  destruct G as [added G]. exists added. split; [exact G|].
  intros k Hk. rewrite G, dict_get_app.
  apply dict_mem_get in Hk as [v ->]. reflexivity.
Qed.

End ExpanderFile.

(** ** More on the conditionals *)

Section ConditionalsMore.

Variable container_str : Value -> string.

(** X26: every binding that [evaluate_conditionals] returns is the value of
    one declared conditional, under that conditional's resolved name, and
    both are computed from the variables passed in: a conditional never
    sees the result of another one of the same block. *)
Theorem conditionals_read_given_variables (fuel : nat)
    (conditionals variables results : dict) :
  evaluate_conditionals container_str fuel conditionals variables = Ok results ->
  forall k v, (k, v) ∈ results ->
    exists (cond_name : Key) (cond_def : dict) (resolved_name : Value),
      (cond_name, VDict cond_def) ∈ conditionals
      /\ resolve container_str fuel (key_value cond_name) variables
         = Ok resolved_name
      /\ key_eqb (match resolved_name with
                  | VStr s => KStr s
                  | _ => cond_name
                  end) k = true
      /\ evaluate_conditional container_str fuel cond_def variables = Ok v.
Proof.
  unfold evaluate_conditionals.
  apply (foldM_invariant
           (fun r : dict => forall k v, (k, v) ∈ r ->
              exists (cond_name : Key) (cond_def : dict) (resolved_name : Value),
                (cond_name, VDict cond_def) ∈ conditionals
                /\ resolve container_str fuel (key_value cond_name) variables
                   = Ok resolved_name
                /\ key_eqb (match resolved_name with
                            | VStr s => KStr s
                            | _ => cond_name
                            end) k = true
                /\ evaluate_conditional container_str fuel cond_def variables
                   = Ok v)).
  - intros k v H. now apply elem_of_nil in H.
  - intros r [cond_name cond_def] r' Hin Hr Hstep k v Hkv.
    destruct cond_def as [| | | |cond_def|];
      try (injection Hstep as <-; now apply Hr).
    apply bind_ok in Hstep as (resolved_name & Hn & Hstep).
    apply bind_ok in Hstep as (final_value & Hv & Hstep).
    injection Hstep as <-.
    apply dict_set_elem in Hkv as [Hkv | [-> Hk]]; [now apply Hr|].
    now exists cond_name, cond_def, resolved_name.
Qed.

End ConditionalsMore.

(** ** The further statements at work *)

Lemma resolve_variable_resolved_is_fixed_witness :
  resolve_variable sample_container_str 1
    (VDict [(KStr "k", VList [VStr "plain > text"; VInt 3; VNone])])
    cyclic_variables 10
  = Ok (VDict [(KStr "k", VList [VStr "plain > text"; VInt 3; VNone])]).
Proof.
  apply (resolve_variable_resolved_is_fixed sample_container_str 0
           cyclic_variables
           (VDict [(KStr "k", VList [VStr "plain > text"; VInt 3; VNone])])).
  reflexivity.
Defined.

Lemma resolve_variable_unbound_untouched_witness :
  resolve_variable sample_container_str 1 (VStr "a<<x>>b<<y>>")
    [(KStr "y", VNone)] 10
  = Ok (VStr "a<<x>>b<<y>>").
Proof.
  apply (resolve_variable_unbound_untouched sample_container_str 0 10
           [(KStr "y", VNone)] "a<<x>>b<<y>>").
  intros x Hx.
  assert (E : Str.finditer "a<<x>>b<<y>>" = ["x"; "y"]) by reflexivity.
  rewrite E in Hx. apply elem_of_cons in Hx as [-> | Hx]; [now left|].
  apply list_elem_of_singleton in Hx as ->. now right.
Defined.

Lemma resolve_variable_nested_witness :
  resolve_variable sample_container_str 2 (VStr "<<rating<<n>>_font>>")
    rating_variables 10
  = Ok (VStr "Arial").
Proof.
  apply (resolve_variable_nested sample_container_str 0 9 rating_variables
           "rating" "n" "_font" (VInt 1) (VStr "Arial"));
    first [reflexivity | discriminate].
Defined.

Lemma resolve_variable_returns_witness :
  exists r,
    resolve_variable sample_container_str 5 (VStr "x<<a>>-<<b>>")
      closed_variables 10 = Ok r.
Proof.
  apply (resolve_variable_returns sample_container_str closed_variables).
  - intros x v H _. unfold closed_variables in H. cbn [Dict.get key_eqb] in H.
    destruct (String.eqb x "a"); [now injection H as <-|].
    destruct (String.eqb x "b"); [now injection H as <-|discriminate].
  - vm_compute. lia.
Defined.

Lemma exists_check_semantics_witness :
  check sample_container_str 1 [(KStr "font", VStr "Arial")]
    (KStr "font.exists") (VBool true) = Ok true
  /\ check sample_container_str 1 [(KStr "font", VStr "Arial")]
       (KStr "size.exists") (VBool true) = Ok false
  /\ check sample_container_str 1 [(KStr "font", VStr "<<f>>")]
       (KStr "font.exists") (VBool true) = Ok false.
Proof.
  split; [|split].
  - destruct (exists_check_semantics sample_container_str 0
                [(KStr "font", VStr "Arial")] "font" eq_refl)
      as (_ & _ & H & _).
    apply (H true (VStr "Arial")); [reflexivity | discriminate |].
    intros t [= <-]. now left.
  - destruct (exists_check_semantics sample_container_str 0
                [(KStr "font", VStr "Arial")] "size" eq_refl) as (H & _).
    apply (H true). now left.
  - destruct (exists_check_semantics sample_container_str 0
                [(KStr "font", VStr "<<f>>")] "font" eq_refl)
      as (_ & H & _).
    now apply (H true "<<f>>").
Defined.

Lemma absent_variable_checks_witness :
  check sample_container_str 1 [] (KStr "font.not") (VStr "Arial") = Ok true
  /\ check sample_container_str 1 [] (KStr "font.exists") (VBool false) = Ok true
  /\ check sample_container_str 1 [] (KStr "font") (VStr "Arial") = Ok false.
Proof.
  destruct (absent_variable_checks sample_container_str 0 [] "font"
              (VStr "Arial") eq_refl eq_refl) as (H1 & H2 & H3).
  split; [exact H1|]. split; [exact H2|]. now apply H3.
Defined.

Lemma present_variable_checks_witness :
  check sample_container_str 1 [(KStr "n", VInt 1)] (KStr "n") (VStr "1")
    = Ok true
  /\ check sample_container_str 1 [(KStr "n", VInt 1)] (KStr "n.not") (VStr "1")
     = Ok false
  /\ check sample_container_str 1 [(KStr "n", VInt 1)] (KStr "n")
       (VList [VStr "1"]) = Ok false
  /\ check sample_container_str 1 [(KStr "n", VInt 1)] (KStr "n")
       (VList [VBool true]) = Ok true.
Proof.
  destruct (present_variable_checks sample_container_str 0 [(KStr "n", VInt 1)]
              "n" (VInt 1) eq_refl eq_refl) as [H1 H2].
  destruct (H1 (VStr "1")) as [Ha Hb]; [discriminate|].
  split; [now apply Ha|]. split; [exact Hb|].
  split; [now apply (H2 [VStr "1"]) | now apply (H2 [VBool true])].
Defined.

Lemma merge_defaults_appends_witness :
  exists added : dict,
    [(KStr "a", VStr "0"); (KStr "b0", VStr "2")]
    = ([(KStr "a", VStr "0")] ++ added)%list
    /\ (forall kv, kv ∈ added ->
          exists dk, (dk, snd kv) ∈ [(KStr "a", VStr "1"); (KStr "b<<a>>", VStr "2")])
    /\ (forall k, Dict.mem k [(KStr "a", VStr "0")] = true ->
          Dict.get k [(KStr "a", VStr "0"); (KStr "b0", VStr "2")]
          = Dict.get k [(KStr "a", VStr "0")]).
Proof.
  apply (merge_defaults_appends sample_container_str 2
           [(KStr "a", VStr "1"); (KStr "b<<a>>", VStr "2")]
           [(KStr "a", VStr "0")]).
  reflexivity.
Defined.

Lemma resolve_keys_drops_unresolved_witness :
  resolve_keys sample_container_str 1 [(KStr "a<<m>>", VInt 5); (KStr "b", VInt 1)]
    = Ok [(KStr "b", VInt 1)]
  /\ Dict.get (KStr "a<<m>>") [(KStr "b", VInt 1)] = None.
Proof.
  split; [reflexivity|].
  apply (resolve_keys_drops_unresolved sample_container_str 1
           [(KStr "a<<m>>", VInt 5); (KStr "b", VInt 1)] [(KStr "b", VInt 1)]
           "a<<m>>"); [reflexivity..|].
  intros vk vv Hin. apply elem_of_cons in Hin as [[= -> ->] | Hin];
    [reflexivity|].
  apply list_elem_of_singleton in Hin as [= -> ->]. discriminate.
Defined.

Lemma remerge_defaults_keeps_resolved_witness :
  Dict.get (KStr "a") [(KStr "a", VStr "old"); (KStr "c", VStr "old")]
  = Some (VStr "old").
Proof.
  apply (remerge_defaults_keeps_resolved sample_container_str 1
           [(KStr "a", VStr "new"); (KStr "c", VStr "<<a>>")]
           [(KStr "a", VStr "old")]);
    first [reflexivity | discriminate].
Defined.

Lemma load_templates_caches_success_witness :
  exists templates : Value,
    (truthy (VDict [(KStr "templates", VDict one_template_library)]) = false ->
     templates = VDict [])
    /\ (forall d,
          truthy (VDict [(KStr "templates", VDict one_template_library)]) = true ->
          VDict [(KStr "templates", VDict one_template_library)] = VDict d ->
          templates = Dict.get_default (KStr "templates") (VDict []) d)
    /\ load_templates "d" library_files ∅ "templates"
       = (<["templates" := templates]> ∅, Ok templates)
    /\ forall fs' : filesystem,
         load_templates "d" fs' (<["templates" := templates]> ∅) "templates"
         = (<["templates" := templates]> ∅, Ok templates).
Proof.
  apply (load_templates_caches_success "d" library_files ∅ "templates"
           (VDict [(KStr "templates", VDict one_template_library)]));
    [reflexivity | reflexivity | right; now eexists].
Defined.

Lemma preprocess_without_shorthand_witness :
  preprocess_template_variables [[(KStr "rating1", VStr "user")]] 0
  = ([[(KStr "rating1", VStr "user")]; [(KStr "rating1", VStr "user")]], 1).
Proof.
  apply (preprocess_without_shorthand [[(KStr "rating1", VStr "user")]] 0).
  intros key value Hk H. unfold rating_keys in Hk.
  apply elem_of_cons in Hk as [-> | Hk]; [now injection H as <-|].
  apply elem_of_cons in Hk as [-> | Hk]; [discriminate|].
  apply list_elem_of_singleton in Hk as ->. discriminate.
Defined.

Lemma preprocess_expands_shorthand_witness :
  (Dict.get (KStr "rating1")
     (deref (fst (preprocess_template_variables (heap caller_state) 0))
        (snd (preprocess_template_variables (heap caller_state) 0)))
     = Some (VStr "user")
   /\ Dict.get (KStr "rating1_image")
        (deref (fst (preprocess_template_variables (heap caller_state) 0))
           (snd (preprocess_template_variables (heap caller_state) 0)))
      = Some (VStr "rt_tomato"))
  /\ Dict.get (KStr "rating2_image")
       (deref (fst (preprocess_template_variables [spaced_variables] 0))
          (snd (preprocess_template_variables [spaced_variables] 0)))
     = Some (VStr "rt").
Proof.
  split.
  - apply (preprocess_expands_shorthand (heap caller_state) 0 "rating1" "user"
             "rt_tomato"); [|reflexivity..].
    unfold rating_keys. apply list_elem_of_here.
  - apply (preprocess_expands_shorthand [spaced_variables] 0 "rating2"
             "critic" ("rt" +:+ no_break_space)); [|reflexivity..].
    unfold rating_keys. apply list_elem_of_further, list_elem_of_here.
Defined.

Lemma extract_regular_entry_wins_witness :
  Dict.get (KStr "font") (fst (extract_external_template_vars font_block))
  = Some (VStr "B").
Proof.
  apply (extract_regular_entry_wins font_block
           [(KStr "default", VDict [(KStr "font", VStr "A")]);
            (KStr "font", VStr "B")] (KStr "font") (VStr "B"));
    [reflexivity | reflexivity | | left; discriminate].
  apply list_elem_of_further, list_elem_of_here.
Defined.

Lemma entry_key_from_name_witness :
  (exists seg : string,
     entry_variables [] (KStr "rating-imdb-top") variables_entry
       = Ok ([(KStr "a", VInt 1)] ++ [(KStr "key", VStr seg)])%list
     /\ lacks "-" seg = true
     /\ ("rating-imdb-top" = seg
         \/ exists p, "rating-imdb-top" = p +:+ "-" +:+ seg))
  /\ entry_variables [] (KInt 3) variables_entry = Raise TypeError
  /\ entry_variables [(KStr "key", VStr "k")] (KInt 3) variables_entry
     = Ok [(KStr "key", VStr "k"); (KStr "a", VInt 1)].
Proof.
  destruct (entry_key_from_name [] variables_entry) as [_ H].
  destruct (H eq_refl) as [H1 H2].
  split; [apply H1|]. split; [apply H2; discriminate|].
  destruct (entry_key_from_name [(KStr "key", VStr "k")] variables_entry)
    as [H3 _].
  now apply H3.
Defined.

Lemma template_entry_bookkeeping_witness :
  Forall (fun kv : Key * Value =>
            fst kv = KStr "_original_name" \/ fst kv = KStr "_template"
            \/ exists name,
                 fst kv = KStr name /\ Str.startswith "_" name = false
                 /\ snd kv <> VNone)
    [(KStr "name", VStr "x"); (KStr "_original_name", VStr "e");
     (KStr "_template", VStr "a, missing")].
Proof.
  apply Forall_forall. intros [k v] H.
  apply (template_entry_bookkeeping sample_container_str 1 one_template_library
           [] [] (KStr "e") two_call_entry (VList [VStr "a"; VStr "missing"])
           _ eq_refl k v H).
Defined.

Lemma expanded_names_are_overlay_keys_witness :
  exists keys : list Key,
    get_overlay_keys_from_file overlay_files "overlays.yml" = Ok keys
    /\ sublist
         (map (Dict.get_default (KStr "_original_name") VNone)
            [[(KStr "name", VStr "x"); (KStr "_original_name", VStr "e");
              (KStr "_template", VStr "a, missing")];
             [(KStr "name", VStr "n7"); (KStr "_original_name", VStr "d");
              (KStr "_direct", VBool true)]])
         (map key_value keys).
Proof.
  apply (expanded_names_are_overlay_keys sample_container_str "d" 2
           overlay_files caller_state "overlays.yml" (Some 0)).
  reflexivity.
Defined.

Lemma local_templates_shadow_external_witness :
  expand_overlays sample_container_str 1 local_template_document
    (VDict [(KStr "a", VDict key_echo_template)]) [] []
  = expand_overlays sample_container_str 1 local_template_document (VDict [])
      [] [].
Proof.
  apply (local_templates_shadow_external sample_container_str 1
           local_template_document one_template_library); [reflexivity|].
  intros k H. unfold Dict.mem, one_template_library in H.
  cbn [Dict.get] in *. now destruct (key_eqb k (KStr "a")).
Defined.


Lemma expand_overlay_file_rejects_non_mapping_witness :
  exists e : exn,
    snd (expand_overlay_file sample_container_str "d" 1 scalar_files
           caller_state "overlays.yml" None) = Raise e.
Proof.
  apply (expand_overlay_file_rejects_non_mapping sample_container_str "d" 1
           scalar_files caller_state "overlays.yml" None (VStr "text"));
    first [reflexivity | discriminate].
Defined.

Lemma external_variables_never_override_witness :
  exists added : dict,
    deref (heap (fst (load_external "d" library_files caller_state
                        external_defaults 0))) 0
    = (deref (heap caller_state) 0 ++ added)%list
    /\ forall k, Dict.mem k (deref (heap caller_state) 0) = true ->
         Dict.get k
           (deref (heap (fst (load_external "d" library_files caller_state
                                external_defaults 0))) 0)
         = Dict.get k (deref (heap caller_state) 0).
Proof.
  apply (external_variables_never_override "d" library_files caller_state
           external_defaults 0).
  vm_compute. lia.
Defined.

Lemma conditionals_read_given_variables_witness :
  Forall (fun kv : Key * Value =>
            exists (cond_name : Key) (cond_def : dict) (resolved_name : Value),
              (cond_name, VDict cond_def)
                ∈ [(KStr "c<<a>>", VDict two_match_spec)]
              /\ resolve sample_container_str 2 (key_value cond_name)
                   [(KStr "a", VInt 1)] = Ok resolved_name
              /\ key_eqb (match resolved_name with
                          | VStr s => KStr s
                          | _ => cond_name
                          end) (fst kv) = true
              /\ evaluate_conditional sample_container_str 2 cond_def
                   [(KStr "a", VInt 1)] = Ok (snd kv))
    [(KStr "c1", VStr "first")].
Proof.
  apply Forall_forall. intros [k v] H.
  apply (conditionals_read_given_variables sample_container_str 2
           [(KStr "c<<a>>", VDict two_match_spec)] [(KStr "a", VInt 1)]
           _ eq_refl k v H).
Defined.

Lemma resolve_variable_outcome_witness :
  VInt 1 <> VNone
  /\ ((exists t, VInt 1 = VStr t)
      \/ exists x, Dict.get (KStr x) rating_variables = Some (VInt 1)).
Proof.
  apply (resolve_variable_outcome sample_container_str 1 rating_variables
           "<<n>>" 10 (VInt 1)).
  reflexivity.
Defined.
